(** * network-monitor: the monitoring engine and the broadcast step

    A shallow embedding of [backend/network_monitor.py] (class
    [NetworkMonitor]) and of the broadcast step of [backend/main.py]
    ([monitor_network], [health]).

    Modelling conventions.
    - Python [int] counters are [Z].  Python [float] values (clock readings,
      rates, durations) are modelled as exact rationals [Qc]: rounding is not
      part of the model.
    - [time.time()] is an oracle: the n-th call made by the program returns
      [clock n].  Code that reads the clock lives in the monad [M], which
      threads the number of readings taken so far.
    - A Python [dict] is a [gmap]; the iteration order of a dict is not
      modelled.  A [set] of sockets is a [gset].
    - The coroutines of [main.py] give way to each other at their awaits
      only.  What the other coroutines do to the shared set of sockets
      during an await of the one that is modelled is an input.
    - What the operating system answers on one tick is gathered in a record
      [OS]: the aggregate counters, the outcome of the [nettop] subprocess,
      the outcome of the connection enumeration and the process names. *)

From Stdlib Require Import ZArith QArith Qcanon Ascii.
From stdpp Require Import base numbers option list strings pretty gmap fin_maps fin_sets.

Local Open Scope Z_scope.
Local Open Scope Qc_scope.

(** ** Numbers *)

Definition Z2Qc (z : Z) : Qc := Q2Qc (inject_Z z).

(** [max(0, x)] on floats. *)
Definition max0 (x : Qc) : Qc := if bool_decide (0 < x) then x else 0.

(** ** The clock monad *)

Definition M (A : Type) : Type := nat → A * nat.

Global Instance M_ret : MRet M := λ A a n, (a, n).
Global Instance M_bind : MBind M := λ A B f m n, let '(a, n') := m n in f a n'.

(** ** What the host returns *)

Module psutil.

(** [psutil.net_io_counters()]: the cumulative aggregate counters. *)
Record snetio := { bytes_sent : Z; bytes_recv : Z }.

(** An endpoint: the named tuple [addr(ip, port)]. *)
Record addr := { ip : string; port : Z }.

(** [conn.type] of an [inet] socket. *)
Inductive SocketKind := SOCK_STREAM | SOCK_DGRAM.

Definition name (k : SocketKind) : string :=
  match k with SOCK_STREAM => "SOCK_STREAM" | SOCK_DGRAM => "SOCK_DGRAM" end.

(** One element of [psutil.net_connections()].  An absent endpoint is the
    empty tuple in Python, [None] here; [pid] may be [None]. *)
Record sconn := {
  laddr : option addr;
  raddr : option addr;
  type : SocketKind;
  status : string;
  pid : option Z
}.

End psutil.

(** Exceptions an external call can raise. *)
Inductive exn :=
  | AccessDenied
  | PermissionError
  | TimeoutExpired
  | FileNotFoundError
  | OtherException.

(** The result of a call that can let an exception escape. *)
Inductive outcome (A : Type) :=
  | Returned (a : A)
  | Raised (e : exn).
Arguments Returned {A} a.
Arguments Raised {A} e.

(** One parsed line of the [nettop] output: the counters stored under
    [current_counters[pid]]. *)
Record ProcCounters := { bytes_in : Qc; bytes_out : Qc }.

(** The outcome of [subprocess.run(['nettop', ...], timeout=2)].  The text of
    [stdout] is represented by the rows the parsing loop accepts, in the
    order of the lines: each row is one assignment
    [current_counters[pid] = {'bytes_in': ..., 'bytes_out': ...}]. *)
Inductive nettop_outcome :=
  | NettopRaises (e : exn)
  | NettopCompleted (returncode : Z) (rows : list (Z * ProcCounters)).

(** The outcome of [psutil.net_connections(kind='inet')]. *)
Inductive connections_outcome :=
  | ConnectionsRaises (e : exn)
  | ConnectionsList (l : list psutil.sconn).

Record OS := {
  net_io_counters : psutil.snetio;
  nettop : nettop_outcome;
  net_connections : connections_outcome;
  (** [psutil.Process(pid).name()]; [None] when it raises [NoSuchProcess]
      or [AccessDenied]. *)
  Process_name : Z → option string
}.

(** ** Data of the monitor *)

Record BandwidthPoint := { timestamp : Qc; upload : Qc; download : Qc }.

(** An entry of [process_bandwidth]: [{'download': ..., 'upload': ...}]. *)
Record ProcRate := { bw_upload : Qc; bw_download : Qc }.

(** A value of the [connections] dict. *)
Module Entry.
Record t := {
  id : string;
  local_addr : string;
  remote_addr : string;
  protocol : string;
  state : string;
  process_name : string;
  pid : Z;
  upload_speed : Qc;
  download_speed : Qc;
  duration : Qc;
  bytes_sent : Z;
  bytes_received : Z;
  start_time : Qc
}.
End Entry.

Module Stats.
Record t := {
  total_upload_speed : Qc;
  total_download_speed : Qc;
  active_connections : nat;
  total_bytes_sent : Z;
  total_bytes_received : Z;
  uptime : Qc
}.
End Stats.

(** The dict returned by [update]. *)
Record Snapshot := { snap_connections : list Entry.t; snap_stats : Stats.t }.

Record NetworkMonitor := {
  history_length : nat;
  bandwidth_history : list BandwidthPoint;
  connections : gmap string Entry.t;
  previous_io_counters : option psutil.snetio;
  previous_time : option Qc;
  start_time : Qc;
  total_bytes_sent : Z;
  total_bytes_received : Z;
  process_bandwidth : gmap Z ProcRate;
  previous_process_counters : gmap Z ProcCounters;
  previous_nettop_time : option Qc
}.

(** ** [collections.deque(maxlen=n)] *)

(** [d.append(x)]: the item is added on the right; when the deque then holds
    more than [maxlen] items, one is dropped on the left. *)
Definition deque_append {A} (maxlen : nat) (d : list A) (x : A) : list A :=
  let d' := d ++ [x] in
  if (maxlen <? length d')%nat then tail d' else d'.

Section monitor.

(** The wall clock: [clock n] is the value of the n-th call of
    [time.time()]. *)
Variable clock : nat → Qc.

Definition time_time : M Qc := λ n, (clock n, S n).

(** *** [_update_io_counters] *)

Definition _update_io_counters (os : OS) (self : NetworkMonitor) : M NetworkMonitor :=
  let current_counters := net_io_counters os in
  current_time ← time_time;
  let history :=
    match previous_io_counters self, previous_time self with
    | Some previous, Some previous_time =>
        let time_delta := current_time - previous_time in
        if bool_decide (0 < time_delta) then
          let bytes_sent_delta :=
            (psutil.bytes_sent current_counters - psutil.bytes_sent previous)%Z in
          let bytes_recv_delta :=
            (psutil.bytes_recv current_counters - psutil.bytes_recv previous)%Z in
          let upload_speed := Z2Qc bytes_sent_delta / time_delta in
          let download_speed := Z2Qc bytes_recv_delta / time_delta in
          let point := {| timestamp := current_time;
                          upload := upload_speed;
                          download := download_speed |} in
          deque_append (history_length self) (bandwidth_history self) point
        else bandwidth_history self
    | _, _ => bandwidth_history self
    end in
  mret {| history_length := history_length self;
          bandwidth_history := history;
          connections := connections self;
          previous_io_counters := Some current_counters;
          previous_time := Some current_time;
          start_time := start_time self;
          total_bytes_sent := psutil.bytes_sent current_counters;
          total_bytes_received := psutil.bytes_recv current_counters;
          process_bandwidth := process_bandwidth self;
          previous_process_counters := previous_process_counters self;
          previous_nettop_time := previous_nettop_time self |}.

(** *** [__init__] *)

Definition __init__ (history_length : nat) (os : OS) : M NetworkMonitor :=
  start ← time_time;
  _update_io_counters os
    {| history_length := history_length;
       bandwidth_history := [];
       connections := ∅;
       previous_io_counters := None;
       previous_time := None;
       start_time := start;
       total_bytes_sent := 0;
       total_bytes_received := 0;
       process_bandwidth := ∅;
       previous_process_counters := ∅;
       previous_nettop_time := None |}.

(** *** Formatting helpers *)

Definition endpoint (a : psutil.addr) : string :=
  psutil.ip a +:+ ":" +:+ pretty (psutil.port a).

(** [str(conn.pid)] inside the f-string. *)
Definition str_pid (p : option Z) : string :=
  match p with Some n => pretty n | None => "None" end.

Definition _get_connection_id (conn : psutil.sconn) : string :=
  let local := from_option endpoint "unknown" (psutil.laddr conn) in
  let remote := from_option endpoint "unknown" (psutil.raddr conn) in
  psutil.name (psutil.type conn) +:+ "_" +:+ local +:+ "_" +:+ remote
    +:+ "_" +:+ str_pid (psutil.pid conn).

Definition _get_process_name (os : OS) (pid : option Z) : string :=
  match pid with
  | None => "Unknown"
  | Some pid => default "Unknown" (Process_name os pid)
  end.

Definition _format_addr (a : option psutil.addr) : string :=
  from_option endpoint "N/A" a.

(** *** [_update_process_bandwidth] *)

(** The dict built by the parsing loop: a later line for the same pid
    overwrites an earlier one. *)
Definition parse_counters (rows : list (Z * ProcCounters)) : gmap Z ProcCounters :=
  foldl (λ m row, <[row.1 := row.2]> m) ∅ rows.

Definition rate_of (time_delta : Qc) (current previous : ProcCounters) : ProcRate :=
  let bytes_in_delta := max0 (bytes_in current - bytes_in previous) in
  let bytes_out_delta := max0 (bytes_out current - bytes_out previous) in
  {| bw_download := bytes_in_delta / time_delta;
     bw_upload := bytes_out_delta / time_delta |}.

(** The loop over [current_counters.items()]: only the pids that are also
    in the previous sample get a rate. *)
Definition process_rates (time_delta : Qc)
    (current_counters previous_counters : gmap Z ProcCounters) : gmap Z ProcRate :=
  map_imap (λ pid current, rate_of time_delta current <$> previous_counters !! pid)
           current_counters.

Definition set_process_sample (self : NetworkMonitor)
    (pb : gmap Z ProcRate) (counters : gmap Z ProcCounters) (t : Qc) : NetworkMonitor :=
  {| history_length := history_length self;
     bandwidth_history := bandwidth_history self;
     connections := connections self;
     previous_io_counters := previous_io_counters self;
     previous_time := previous_time self;
     start_time := start_time self;
     total_bytes_sent := total_bytes_sent self;
     total_bytes_received := total_bytes_received self;
     process_bandwidth := pb;
     previous_process_counters := counters;
     previous_nettop_time := Some t |}.

Definition _update_process_bandwidth (os : OS) (self : NetworkMonitor) : M NetworkMonitor :=
  current_time ← time_time;
  match nettop os with
  | NettopRaises _ => mret self
  | NettopCompleted returncode rows =>
      if bool_decide (returncode ≠ 0%Z) then mret self
      else
        let current_counters := parse_counters rows in
        let pb :=
          match previous_nettop_time self with
          | Some previous_nettop_time =>
              if bool_decide (previous_process_counters self = ∅)
              then process_bandwidth self
              else
                let time_delta := current_time - previous_nettop_time in
                if bool_decide (0 < time_delta)
                then process_rates time_delta current_counters
                       (previous_process_counters self)
                else process_bandwidth self
          | None => process_bandwidth self
          end in
        mret (set_process_sample self pb current_counters current_time)
  end.

(** *** [update] *)

Fixpoint for_each {A B} (body : B → A → M B) (acc : B) (l : list A) : M B :=
  match l with
  | [] => mret acc
  | x :: l => acc ← body acc x; for_each body acc l
  end.

(** [conn.pid if conn.pid else 0] *)
Definition pid_or_zero (p : option Z) : Z :=
  match p with
  | Some n => if bool_decide (n = 0%Z) then 0%Z else n
  | None => 0%Z
  end.

Definition no_rate : ProcRate := {| bw_upload := 0; bw_download := 0 |}.

(** The body of the loop over [connections_list]; [self] is the monitor
    as it is when the loop starts, [current_connections] the dict being
    built. *)
Definition track (os : OS) (self : NetworkMonitor)
    (current_connections : gmap string Entry.t) (conn : psutil.sconn)
    : M (gmap string Entry.t) :=
  match psutil.raddr conn with
  | None => mret current_connections
  | Some _ =>
      let conn_id := _get_connection_id conn in
      let process_name := _get_process_name os (psutil.pid conn) in
      let pid := pid_or_zero (psutil.pid conn) in
      let proc_bw := default no_rate (process_bandwidth self !! pid) in
      match connections self !! conn_id with
      | Some existing =>
          now ← time_time;
          let duration := now - Entry.start_time existing in
          mret (<[conn_id :=
                  {| Entry.id := conn_id;
                     Entry.local_addr := _format_addr (psutil.laddr conn);
                     Entry.remote_addr := _format_addr (psutil.raddr conn);
                     Entry.protocol := psutil.name (psutil.type conn);
                     Entry.state := psutil.status conn;
                     Entry.process_name := process_name;
                     Entry.pid := pid;
                     Entry.upload_speed := bw_upload proc_bw;
                     Entry.download_speed := bw_download proc_bw;
                     Entry.duration := duration;
                     Entry.bytes_sent := 0;
                     Entry.bytes_received := 0;
                     Entry.start_time := Entry.start_time existing |}]>
                current_connections)
      | None =>
          now ← time_time;
          mret (<[conn_id :=
                  {| Entry.id := conn_id;
                     Entry.local_addr := _format_addr (psutil.laddr conn);
                     Entry.remote_addr := _format_addr (psutil.raddr conn);
                     Entry.protocol := psutil.name (psutil.type conn);
                     Entry.state := psutil.status conn;
                     Entry.process_name := process_name;
                     Entry.pid := pid;
                     Entry.upload_speed := bw_upload proc_bw;
                     Entry.download_speed := bw_download proc_bw;
                     Entry.duration := 0;
                     Entry.bytes_sent := 0;
                     Entry.bytes_received := 0;
                     Entry.start_time := now |}]>
                current_connections)
      end
  end.

(** The [try] around the enumeration: a permission failure gives the
    empty list, any other exception escapes. *)
Definition enumerate (os : OS) : outcome (list psutil.sconn) :=
  match net_connections os with
  | ConnectionsList l => Returned l
  | ConnectionsRaises AccessDenied | ConnectionsRaises PermissionError => Returned []
  | ConnectionsRaises e => Raised e
  end.

Definition set_connections (self : NetworkMonitor)
    (c : gmap string Entry.t) : NetworkMonitor :=
  {| history_length := history_length self;
     bandwidth_history := bandwidth_history self;
     connections := c;
     previous_io_counters := previous_io_counters self;
     previous_time := previous_time self;
     start_time := start_time self;
     total_bytes_sent := total_bytes_sent self;
     total_bytes_received := total_bytes_received self;
     process_bandwidth := process_bandwidth self;
     previous_process_counters := previous_process_counters self;
     previous_nettop_time := previous_nettop_time self |}.

(** [sum(...)]: a left fold from 0. *)
Definition sum (l : list Qc) : Qc := foldl Qcplus 0 l.

Definition values {K A} `{Countable K} (m : gmap K A) : list A := (map_to_list m).*2.

Definition get_stats (self : NetworkMonitor) : M Stats.t :=
  let current_upload := sum (bw_upload <$> values (process_bandwidth self)) in
  let current_download := sum (bw_download <$> values (process_bandwidth self)) in
  now ← time_time;
  mret {| Stats.total_upload_speed := current_upload;
          Stats.total_download_speed := current_download;
          Stats.active_connections := size (connections self);
          Stats.total_bytes_sent := total_bytes_sent self;
          Stats.total_bytes_received := total_bytes_received self;
          Stats.uptime := now - start_time self |}.

Definition get_connections (self : NetworkMonitor) : list Entry.t :=
  values (connections self).

Definition update (os : OS) (self : NetworkMonitor)
    : M (outcome Snapshot * NetworkMonitor) :=
  self ← _update_io_counters os self;
  self ← _update_process_bandwidth os self;
  match enumerate os with
  | Raised e => mret (Raised e, self)
  | Returned connections_list =>
      current_connections ← for_each (track os self) ∅ connections_list;
      let self := set_connections self current_connections in
      let current_upload := sum (bw_upload <$> values (process_bandwidth self)) in
      let current_download := sum (bw_download <$> values (process_bandwidth self)) in
      now ← time_time;
      mret (Returned
              {| snap_connections := values (connections self);
                 snap_stats :=
                   {| Stats.total_upload_speed := current_upload;
                      Stats.total_download_speed := current_download;
                      Stats.active_connections := size (connections self);
                      Stats.total_bytes_sent := total_bytes_sent self;
                      Stats.total_bytes_received := total_bytes_received self;
                      Stats.uptime := now - start_time self |} |},
            self)
  end.

(** [BandwidthPoint.to_dict] is the identity on the three fields. *)
Definition get_bandwidth_history (self : NetworkMonitor) : list BandwidthPoint :=
  bandwidth_history self.

(** The dict that the loop body stores for [conn] when its clock reading
    is [now]. *)
Definition tracked_entry (os : OS) (self : NetworkMonitor)
    (conn : psutil.sconn) (now : Qc) : Entry.t :=
  let conn_id := _get_connection_id conn in
  let proc_bw :=
    default no_rate (process_bandwidth self !! pid_or_zero (psutil.pid conn)) in
  {| Entry.id := conn_id;
     Entry.local_addr := _format_addr (psutil.laddr conn);
     Entry.remote_addr := _format_addr (psutil.raddr conn);
     Entry.protocol := psutil.name (psutil.type conn);
     Entry.state := psutil.status conn;
     Entry.process_name := _get_process_name os (psutil.pid conn);
     Entry.pid := pid_or_zero (psutil.pid conn);
     Entry.upload_speed := bw_upload proc_bw;
     Entry.download_speed := bw_download proc_bw;
     Entry.duration :=
       match connections self !! conn_id with
       | Some existing => now - Entry.start_time existing
       | None => 0
       end;
     Entry.bytes_sent := 0;
     Entry.bytes_received := 0;
     Entry.start_time :=
       match connections self !! conn_id with
       | Some existing => Entry.start_time existing
       | None => now
       end |}.

(** The sockets of an enumeration that the loop does not skip. *)
Definition has_remote (conn : psutil.sconn) : bool :=
  bool_decide (is_Some (psutil.raddr conn)).

Definition tracked_ids (l : list psutil.sconn) : list string :=
  _get_connection_id <$> filter has_remote l.

(** The monitor after the two samplers of [update] have run, and the dict
    [current_connections] that the loop then builds from the enumeration
    [l], paired with the number of clock readings taken. *)
Definition sampled (os : OS) (self : NetworkMonitor) (n : nat) : NetworkMonitor :=
  (_update_process_bandwidth os (_update_io_counters os self n).1 (S n)).1.

Definition reconciled (os : OS) (self : NetworkMonitor) (n : nat)
    (l : list psutil.sconn) : gmap string Entry.t * nat :=
  for_each (track os (sampled os self n)) ∅ l (S (S n)).

(** The host [os] with other aggregate counters. *)
Definition with_counters (os : OS) (io : psutil.snetio) : OS :=
  {| net_io_counters := io;
     nettop := nettop os;
     net_connections := net_connections os;
     Process_name := Process_name os |}.

(** *** Runs of ticks *)

(** The point that [_update_io_counters] appends to the history when it is
    called in state [self] and reads the clock at [n], if it appends one. *)
Definition appended_point (os : OS) (self : NetworkMonitor) (n : nat)
    : option BandwidthPoint :=
  match previous_io_counters self, previous_time self with
  | Some previous, Some previous_time =>
      if bool_decide (0 < clock n - previous_time) then
        Some {| timestamp := clock n;
                upload := Z2Qc (psutil.bytes_sent (net_io_counters os)
                                - psutil.bytes_sent previous)
                          / (clock n - previous_time);
                download := Z2Qc (psutil.bytes_recv (net_io_counters os)
                                  - psutil.bytes_recv previous)
                            / (clock n - previous_time) |}
      else None
  | _, _ => None
  end.

(** Successive calls of [update], one per element of [ticks]; as in the
    monitoring loop, a tick that raises does not stop the next one. *)
Fixpoint run (ticks : list OS) (self : NetworkMonitor) : M NetworkMonitor :=
  match ticks with
  | [] => mret self
  | os :: ticks => r ← update os self; run ticks r.2
  end.

(** The points appended to the history during [run ticks self], oldest
    first. *)
Fixpoint appended_points (ticks : list OS) (self : NetworkMonitor) (n : nat)
    : list BandwidthPoint :=
  match ticks with
  | [] => []
  | os :: ticks =>
      let '(r, n') := update os self n in
      option_list (appended_point os self n) ++ appended_points ticks r.2 n'
  end.

(** *** Predicates used in the statements *)

(** Every entry of the table was dated by a clock reading already taken:
    its start time plus its duration is an earlier reading. *)
Definition dated (n : nat) (t : gmap string Entry.t) : Prop :=
  ∀ cid e, t !! cid = Some e →
    ∃ i, (i < n)%nat ∧ Entry.start_time e + Entry.duration e = clock i.

(** The sampler failed on this tick: [subprocess.run] raised (the tool is
    missing, timed out, or any other exception), or [nettop] exited with a
    non-zero return code. *)
Definition sampler_failed (os : OS) : Prop :=
  (∃ e, nettop os = NettopRaises e)
  ∨ (∃ returncode rows,
       nettop os = NettopCompleted returncode rows ∧ returncode ≠ 0%Z).

End monitor.

(** ** The broadcast step of [main.py] *)

Module Broadcaster.

(** A WebSocket object, identified by a number (Python hashes the object
    by identity). *)
Definition WebSocket := nat.

(** The JSON text sent to the clients: [{'type': ..., 'data': ...}]. *)
Record message := { msg_type : string; msg_data : Snapshot }.

(** [active_connections] is shared with the endpoints.  While the
    monitoring loop is suspended in an [await], the endpoints run: one that
    has accepted a client does [active_connections.add(websocket)], one
    that ends does [active_connections.discard(websocket)]. *)
Inductive operation :=
  | Add (websocket : WebSocket)
  | Discard (websocket : WebSocket).

Definition perform (s : gset WebSocket) (op : operation) : gset WebSocket :=
  match op with
  | Add websocket => s ∪ {[websocket]}
  | Discard websocket => s ∖ {[websocket]}
  end.

Definition interfere (ops : list operation) (s : gset WebSocket) : gset WebSocket :=
  foldl perform s ops.

(** Whether an operation writes to the hash table of the set: [add] of a
    member and [discard] of a socket that is not a member find that out by
    a lookup and leave the table as it is. *)
Definition writes (s : gset WebSocket) (op : operation) : bool :=
  match op with
  | Add websocket => bool_decide (websocket ∉ s)
  | Discard websocket => bool_decide (websocket ∈ s)
  end.

(** Whether one of the operations, done in order, writes to the table. *)
Fixpoint touched (ops : list operation) (s : gset WebSocket) : bool :=
  match ops with
  | [] => false
  | op :: ops => writes s op || touched ops (perform s op)
  end.

(** How the loop [for connection in active_connections] ends: the iterator
    is exhausted; or [next] raises [RuntimeError] (Set changed size during
    iteration) because the set no longer has the size it had when the
    iterator was made; or the table of the set was written to and the set
    has its old size again (a socket added and another, or the same,
    discarded), after which the members that the iterator yields depend on
    the layout of the hash table, which is not modelled: the broadcast is
    then described up to that point only. *)
Inductive iteration :=
  | Exhausted
  | SizeChanged
  | Reshuffled.

(** The variables of the loop: the shared set as it is now, whether its
    table has been written to since the iterator was made, the sockets
    handed to [send_text] so far, in order, and the local set
    [disconnected]. *)
Record loop := {
  live : gset WebSocket;
  written : bool;
  tried : list WebSocket;
  disconnected : gset WebSocket
}.

Section publish.

(** [await connection.send_text(message)]: returns or raises. *)
Variable send_text : WebSocket → message → outcome unit.

(** What the endpoints do to the shared set while the delivery to a socket
    is awaited. *)
Variable meanwhile : WebSocket → list operation.

(** The delivery to [connection] returns. *)
Definition accepts (msg : message) (connection : WebSocket) : bool :=
  match send_text connection msg with
  | Returned _ => true
  | Raised _ => false
  end.

(** What [next] does before it yields a member or finds the iterator
    exhausted; [initial] is the set when the iterator was made, of which
    the iterator keeps the size. *)
Definition next (initial : gset WebSocket) (st : loop) : option iteration :=
  if bool_decide (size (live st) ≠ size initial) then Some SizeChanged
  else if written st then Some Reshuffled
  else None.

(** The loop over the members [todo] that the iterator has still to yield.
    The body awaits the delivery inside its own [try]: an exception of
    [send_text] puts the socket in [disconnected]. *)
Fixpoint send_all (msg : message) (initial : gset WebSocket)
    (todo : list WebSocket) (st : loop) : iteration * loop :=
  match next initial st with
  | Some stop => (stop, st)
  | None =>
      match todo with
      | [] => (Exhausted, st)
      | connection :: todo =>
          send_all msg initial todo
            {| live := interfere (meanwhile connection) (live st);
               written := written st || touched (meanwhile connection) (live st);
               tried := tried st ++ [connection];
               disconnected :=
                 match send_text connection msg with
                 | Returned _ => disconnected st
                 | Raised _ => disconnected st ∪ {[connection]}
                 end |}
      end
  end.

(** The result of one broadcast: how the loop ended ([None] when there was
    no subscriber and the loop was not entered), the sockets handed to
    [send_text] and the shared set afterwards (for [Reshuffled]: so far,
    and the shared set at that point). *)
Record published := {
  ended : option iteration;
  attempted : list WebSocket;
  active_after : gset WebSocket
}.

(** The broadcast of one snapshot in [monitor_network].  When the loop is
    exhausted, [active_connections.difference_update(disconnected)] runs.
    The [RuntimeError] of [next] is raised outside the [try] of the loop
    body: it leaves the block, the outer [except Exception] absorbs it, and
    [difference_update] is not reached. *)
Definition publish (data : Snapshot) (active_connections : gset WebSocket)
    : published :=
  if bool_decide (active_connections = ∅)
  then {| ended := None; attempted := []; active_after := active_connections |}
  else
    let msg := {| msg_type := "update"; msg_data := data |} in
    let r := send_all msg active_connections (elements active_connections)
               {| live := active_connections; written := false;
                  tried := []; disconnected := ∅ |} in
    {| ended := Some r.1;
       attempted := tried r.2;
       active_after :=
         match r.1 with
         | Exhausted => live r.2 ∖ disconnected r.2
         | SizeChanged => live r.2
         | Reshuffled => live r.2
         end |}.

End publish.

(** The [active_connections] field of the [/health] answer. *)
Definition health (active_connections : gset WebSocket) : nat :=
  size active_connections.

End Broadcaster.

(** ** Text of the identities *)

(** [mentions c s]: the character [c] occurs in [s]. *)
Fixpoint mentions (c : ascii) (s : string) : bool :=
  match s with
  | EmptyString => false
  | String a s => bool_decide (a = c) || mentions c s
  end.

(** ** Hosts and monitors used in the examples *)

(** A clock that advances by one second at every reading. *)
Definition seconds (n : nat) : Qc := Z2Qc (Z.of_nat n).

(** A host with the given aggregate counters, where [nettop] is missing and
    no socket is open. *)
Definition quiet_host (sent recv : Z) : OS :=
  {| net_io_counters := {| psutil.bytes_sent := sent; psutil.bytes_recv := recv |};
     nettop := NettopRaises FileNotFoundError;
     net_connections := ConnectionsList [];
     Process_name := λ _, None |}.

Definition web : psutil.sconn :=
  {| psutil.laddr := Some {| psutil.ip := "10.0.0.2"; psutil.port := 50000 |};
     psutil.raddr := Some {| psutil.ip := "93.184.216.34"; psutil.port := 443 |};
     psutil.type := psutil.SOCK_STREAM;
     psutil.status := "ESTABLISHED";
     psutil.pid := Some 4242%Z |}.

Definition listener : psutil.sconn :=
  {| psutil.laddr := Some {| psutil.ip := "0.0.0.0"; psutil.port := 8080 |};
     psutil.raddr := None;
     psutil.type := psutil.SOCK_STREAM;
     psutil.status := "LISTEN";
     psutil.pid := Some 77%Z |}.

Definition orphan : psutil.sconn :=
  {| psutil.laddr := Some {| psutil.ip := "10.0.0.2"; psutil.port := 50001 |};
     psutil.raddr := Some {| psutil.ip := "1.1.1.1"; psutil.port := 53 |};
     psutil.type := psutil.SOCK_DGRAM;
     psutil.status := "NONE";
     psutil.pid := None |}.

Definition names (p : Z) : option string :=
  if bool_decide (p = 4242%Z) then Some "curl" else None.

(** A host whose [nettop] reports the given rows and whose enumeration
    returns [l]. *)
Definition host (sent recv : Z) (rows : list (Z * ProcCounters))
    (l : list psutil.sconn) : OS :=
  {| net_io_counters := {| psutil.bytes_sent := sent; psutil.bytes_recv := recv |};
     nettop := NettopCompleted 0 rows;
     net_connections := ConnectionsList l;
     Process_name := names |}.

(** The same host on a tick where the enumeration is refused. *)
Definition refused_host (sent recv : Z) (rows : list (Z * ProcCounters)) : OS :=
  {| net_io_counters := {| psutil.bytes_sent := sent; psutil.bytes_recv := recv |};
     nettop := NettopCompleted 0 rows;
     net_connections := ConnectionsRaises AccessDenied;
     Process_name := names |}.

Definition counters (i o : Z) : ProcCounters :=
  {| bytes_in := Z2Qc i; bytes_out := Z2Qc o |}.

(** A monitor just constructed, paired with the number of clock readings
    taken so far. *)
Definition fresh : NetworkMonitor * nat :=
  __init__ seconds 60%nat (quiet_host 0 0) 0%nat.

(** A monitor that has seen one tick on which [nettop] reported a process
    with pid 0. *)
Definition idle : NetworkMonitor * nat :=
  let r := update seconds (host 5 5 [(0%Z, counters 200 300)] []) fresh.1 fresh.2 in
  (r.1.2, r.2).

Definition idle_tick : OS :=
  host 10 10 [(0%Z, counters 700 900)] [orphan; web].

(** A monitor that has seen two ticks with two processes, paired with the
    number of clock readings taken so far, and the third tick that follows. *)
Definition busy : NetworkMonitor * nat :=
  run seconds
    [host 5 5 [(4242%Z, counters 100 200); (77%Z, counters 0 0)] [web];
     host 9 9 [(4242%Z, counters 400 900); (77%Z, counters 50 100)] [web]]
    fresh.1 fresh.2.

Definition busy_tick : OS :=
  host 4009 9 [(4242%Z, counters 400 2500); (77%Z, counters 50 500)] [web; orphan].

Definition no_snapshot : Snapshot :=
  {| snap_connections := [];
     snap_stats := {| Stats.total_upload_speed := 0;
                      Stats.total_download_speed := 0;
                      Stats.active_connections := 0;
                      Stats.total_bytes_sent := 0;
                      Stats.total_bytes_received := 0;
                      Stats.uptime := 0 |} |}.

Definition busy_snapshot : Snapshot := Eval vm_compute in
  match (update seconds busy_tick busy.1 busy.2).1.1 with
  | Returned snap => snap
  | Raised _ => no_snapshot
  end.

Definition web_after_two_ticks : Entry.t := Eval vm_compute in
  let r := run seconds [host 10 10 [] [web]]
             (__init__ seconds 60%nat (quiet_host 0 0) 0%nat).1 2%nat in
  let r' := update seconds (host 20 20 [] [web]) r.1 r.2 in
  default (tracked_entry (quiet_host 0 0) r.1 web 0)
          (connections r'.1.2 !! _get_connection_id web).

(** ** The WebSocket endpoint of [main.py] *)

Module Transport.

Import Broadcaster.

(** What [json.loads(message)] gives for a text received from the client,
    as far as the endpoint looks at it: the text is not JSON (the call
    raises), it is JSON but not an object (the value has no [get]), or it
    is an object, with the value of [data.get('type')] when that is a
    string ([None] when the entry is missing or is not a string). *)
Inductive payload :=
  | NotJson
  | NotAnObject
  | Object (type : option string).

(** The exceptions of the receive loop, by the handler that catches them:
    [asyncio.TimeoutError], [WebSocketDisconnect], and any other
    [Exception]. *)
Inductive raised :=
  | TimeoutError
  | WebSocketDisconnect
  | OtherError.

(** One turn of the receive loop: the outcome of
    [asyncio.wait_for(websocket.receive_text(), timeout=60.0)] and, for a
    text, of the [send_text] of the reply should the endpoint send one
    ([None] when it returns). *)
Inductive turn :=
  | Raises (e : raised)
  | Text (data : payload) (reply : option raised).

(** A frame handed to [websocket.send_text]. *)
Inductive frame :=
  | Initial (data : Snapshot)
  | Pong.

(** The inner [while True] loop on the given turns: the frames handed to
    [send_text], in order, and whether the loop is still waiting for a
    message when the turns are over ([true]) or has been left by [break]
    ([false]).  The whole body is in one [try]: an
    [asyncio.TimeoutError], raised by the wait or by the [send_text] of
    the pong, continues the loop; any other exception leaves it. *)
Fixpoint receive_loop (turns : list turn) : list frame * bool :=
  match turns with
  | [] => ([], true)
  | Raises TimeoutError :: turns => receive_loop turns
  | Raises WebSocketDisconnect :: _ => ([], false)
  | Raises OtherError :: _ => ([], false)
  | Text NotJson _ :: _ => ([], false)
  | Text NotAnObject _ :: _ => ([], false)
  | Text (Object type) reply :: turns =>
      if bool_decide (type = Some "ping") then
        match reply with
        | None | Some TimeoutError =>
            let '(frames, waiting) := receive_loop turns in (Pong :: frames, waiting)
        | Some WebSocketDisconnect | Some OtherError => ([Pong], false)
        end
      else receive_loop turns
  end.

(** What a session leaves: the monitor as the only call of [update] by the
    endpoint leaves it, the shared set, the frames handed to [send_text],
    and whether the endpoint is still in its receive loop. *)
Record served := {
  monitor_after : NetworkMonitor;
  active_after : gset WebSocket;
  sent : list frame;
  waiting : bool
}.

(** [websocket_endpoint], after [accept]: the socket joins
    [active_connections] and the monitor is ticked once, without any
    [await] in between; the snapshot is sent as the initial frame, then the
    receive loop runs; on every way out the [finally] clause discards the
    socket.  [initial] is the outcome of the [send_text] of the initial
    frame ([None] when it returns); [others] is what the other coroutines
    do to the shared set while the endpoint is suspended in its awaits. *)
Definition websocket_endpoint (clock : nat → Qc) (websocket : WebSocket)
    (os : OS) (initial : option raised) (turns : list turn)
    (others : list operation)
    (monitor : NetworkMonitor) (active_connections : gset WebSocket)
    : M served :=
  let active_connections := active_connections ∪ {[websocket]} in
  r ← update clock os monitor;
  match r.1 with
  | Raised _ =>
      mret {| monitor_after := r.2;
              active_after := active_connections ∖ {[websocket]};
              sent := [];
              waiting := false |}
  | Returned data =>
      let shared := interfere others active_connections in
      match initial with
      | Some _ =>
          mret {| monitor_after := r.2;
                  active_after := shared ∖ {[websocket]};
                  sent := [Initial data];
                  waiting := false |}
      | None =>
          let '(frames, waiting) := receive_loop turns in
          mret {| monitor_after := r.2;
                  active_after :=
                    if waiting then shared else shared ∖ {[websocket]};
                  sent := Initial data :: frames;
                  waiting := waiting |}
      end
  end.

(** The texts that are pings, and the turns that do not end the receive
    loop: a timeout, a text that is an object and not a ping, and a ping
    whose pong is delivered or times out. *)
Definition is_ping (t : turn) : bool :=
  match t with
  | Text (Object type) _ => bool_decide (type = Some "ping")
  | _ => false
  end.

Definition keeps_open (t : turn) : bool :=
  match t with
  | Raises TimeoutError => true
  | Text (Object type) reply =>
      if bool_decide (type = Some "ping")
      then match reply with
           | None | Some TimeoutError => true
           | Some WebSocketDisconnect | Some OtherError => false
           end
      else true
  | _ => false
  end.

End Transport.

(** A second socket of the process of [web]. *)
Definition web_second : psutil.sconn :=
  {| psutil.laddr := Some {| psutil.ip := "10.0.0.2"; psutil.port := 50007 |};
     psutil.raddr := Some {| psutil.ip := "93.184.216.34"; psutil.port := 443 |};
     psutil.type := psutil.SOCK_STREAM;
     psutil.status := "ESTABLISHED";
     psutil.pid := Some 4242%Z |}.

Definition twin_tick : OS :=
  host 4009 9 [(4242%Z, counters 400 2500)] [web; web_second].

Definition twin_entry (conn : psutil.sconn) : Entry.t := Eval vm_compute in
  default (tracked_entry twin_tick busy.1 conn 0)
          (connections (update seconds twin_tick busy.1 busy.2).1.2
             !! _get_connection_id conn).

(** The entry of [web] in [busy], and its entry after a refused tick
    followed by [busy_tick]. *)
Definition busy_web : Entry.t := Eval vm_compute in
  default (tracked_entry busy_tick busy.1 web 0)
          (connections busy.1 !! _get_connection_id web).

Definition restarted_web : Entry.t := Eval vm_compute in
  let a := update seconds (refused_host 4020 20 []) busy.1 busy.2 in
  default (tracked_entry busy_tick busy.1 web 0)
          (connections (update seconds busy_tick a.1.2 a.2).1.2
             !! _get_connection_id web).

(** ** Predicates used in the further statements *)

(** The text of an IP address holds no underscore, as is the case of every
    IPv4 and IPv6 address. *)
Definition plain_endpoint (a : option psutil.addr) : bool :=
  match a with
  | Some a => negb (mentions "_" (psutil.ip a))
  | None => true
  end.

Definition plain_ips (conn : psutil.sconn) : bool :=
  plain_endpoint (psutil.laddr conn) && plain_endpoint (psutil.raddr conn).

(** The timestamps of a list of points grow strictly from left to right. *)
Definition increasing (l : list BandwidthPoint) : Prop :=
  ∀ i j p q, (i < j)%nat → l !! i = Some p → l !! j = Some q →
    timestamp p < timestamp q.

(** The rates of the table and of the entries are not negative. *)
Definition rates_not_negative (self : NetworkMonitor) : Prop :=
  (∀ pid r, process_bandwidth self !! pid = Some r →
     0 ≤ bw_upload r ∧ 0 ≤ bw_download r)
  ∧ (∀ cid e, connections self !! cid = Some e →
       0 ≤ Entry.upload_speed e ∧ 0 ≤ Entry.download_speed e).

(** What every entry built by the loop of [update] satisfies. *)
Definition well_formed (cid : string) (e : Entry.t) : Prop :=
  Entry.id e = cid
  ∧ Entry.bytes_sent e = 0%Z
  ∧ Entry.bytes_received e = 0%Z
  ∧ Entry.remote_addr e ≠ "N/A"
  ∧ (Entry.protocol e = "SOCK_STREAM" ∨ Entry.protocol e = "SOCK_DGRAM").

(** The history is dated: the last sample was taken at an earlier reading,
    no point is later than it, and the timestamps grow. *)
Definition history_dated (clock : nat → Qc) (n : nat) (self : NetworkMonitor) : Prop :=
  ∃ i, (i < n)%nat
     ∧ previous_time self = Some (clock i)
     ∧ (∀ p, p ∈ bandwidth_history self → timestamp p ≤ clock i)
     ∧ increasing (bandwidth_history self).

(** Every entry started at a clock reading taken since the reading [n0] and
    was last seen at a later or equal reading, which gives its duration. *)
Definition timed (clock : nat → Qc) (n0 n : nat) (t : gmap string Entry.t) : Prop :=
  ∀ cid e, t !! cid = Some e →
    ∃ j i, (n0 ≤ j ≤ i)%nat ∧ (i < n)%nat
         ∧ Entry.start_time e = clock j
         ∧ Entry.duration e = clock i - clock j.

(** * Properties *)

(** ** The steps of the monad *)

Section steps.

Variable clock : nat → Qc.

Lemma bind_run {A B} (m : M A) (f : A → M B) n :
  (m ≫= f) n = f (m n).1 (m n).2.
Proof. unfold mbind, M_bind. by destruct (m n). Qed.

Lemma ret_run {A} (a : A) n : (mret a : M A) n = (a, n).
Proof. done. Qed.

Lemma _update_io_counters_reads os self n :
  (_update_io_counters clock os self n).2 = S n.
Proof. done. Qed.

(** [_update_io_counters] changes the history by at most one append, and
    the point appended is [appended_point]. *)
Lemma _update_io_counters_history os self n :
  bandwidth_history (_update_io_counters clock os self n).1 =
    match appended_point clock os self n with
    | Some p => deque_append (history_length self) (bandwidth_history self) p
    | None => bandwidth_history self
    end.
Proof.
  unfold _update_io_counters, appended_point, time_time.
  rewrite bind_run. simpl.
  destruct (previous_io_counters self), (previous_time self); try done.
  by case_bool_decide.
Qed.

Lemma _update_io_counters_frame os self n :
  let self' := (_update_io_counters clock os self n).1 in
  history_length self' = history_length self
  ∧ connections self' = connections self
  ∧ start_time self' = start_time self
  ∧ process_bandwidth self' = process_bandwidth self
  ∧ previous_process_counters self' = previous_process_counters self
  ∧ previous_nettop_time self' = previous_nettop_time self
  ∧ previous_io_counters self' = Some (net_io_counters os)
  ∧ previous_time self' = Some (clock n)
  ∧ total_bytes_sent self' = psutil.bytes_sent (net_io_counters os)
  ∧ total_bytes_received self' = psutil.bytes_recv (net_io_counters os).
Proof. done. Qed.

Lemma _update_process_bandwidth_reads os self n :
  (_update_process_bandwidth clock os self n).2 = S n.
Proof.
  unfold _update_process_bandwidth, time_time. rewrite bind_run. simpl.
  destruct (nettop os); [done|]. by case_bool_decide.
Qed.

Lemma _update_process_bandwidth_frame os self n :
  let self' := (_update_process_bandwidth clock os self n).1 in
  history_length self' = history_length self
  ∧ bandwidth_history self' = bandwidth_history self
  ∧ connections self' = connections self
  ∧ start_time self' = start_time self
  ∧ previous_io_counters self' = previous_io_counters self
  ∧ previous_time self' = previous_time self
  ∧ total_bytes_sent self' = total_bytes_sent self
  ∧ total_bytes_received self' = total_bytes_received self.
Proof.
  unfold _update_process_bandwidth, time_time. rewrite bind_run. simpl.
  destruct (nettop os); [done|]. by case_bool_decide.
Qed.

Lemma track_run os self cur conn n :
  track clock os self cur conn n =
    if has_remote conn
    then (<[_get_connection_id conn := tracked_entry os self conn (clock n)]> cur, S n)
    else (cur, n).
Proof.
  unfold track, has_remote, tracked_entry.
  destruct (psutil.raddr conn) as [a|] eqn:Hr; simpl.
  - destruct (connections self !! _get_connection_id conn);
      unfold time_time; rewrite bind_run; simpl; try rewrite Hr; done.
  - done.
Qed.

Lemma for_each_track os self l : ∀ acc n,
  let r := for_each (track clock os self) acc l n in
  (n ≤ r.2)%nat
  ∧ (∀ cid,
      ((cid ∉ tracked_ids l) ∧ r.1 !! cid = acc !! cid)
      ∨ (∃ conn i, conn ∈ l ∧ has_remote conn
           ∧ _get_connection_id conn = cid ∧ (n ≤ i < r.2)%nat
           ∧ r.1 !! cid = Some (tracked_entry os self conn (clock i)))).
Proof.
  induction l as [|c l IH]; intros acc n; simpl.
  - split; [done|]. intros cid. left. split; [|done].
    unfold tracked_ids. cbn. apply not_elem_of_nil.
  - rewrite bind_run, track_run.
    destruct (has_remote c) eqn:Hc; simpl.
    + destruct (IH (<[_get_connection_id c :=
                       tracked_entry os self c (clock n)]> acc) (S n)) as [Hle Hcid].
      split; [lia|]. intros cid.
      destruct (Hcid cid) as [[Hnot Hlook]|(conn & i & ? & ? & ? & ? & ?)].
      * destruct (decide (_get_connection_id c = cid)) as [<-|Hne].
        -- right. exists c, n. rewrite Hlook, lookup_insert_eq.
           split_and!; [left|by rewrite Hc|done|lia|lia|done].
        -- left. rewrite Hlook, lookup_insert_ne by done. split; [|done].
           unfold tracked_ids in *. rewrite filter_cons, Hc. simpl.
           rewrite not_elem_of_cons. done.
      * right. exists conn, i. split_and!; [by right|done|done|lia|lia|done].
    + destruct (IH acc n) as [Hle Hcid]. split; [done|]. intros cid.
      destruct (Hcid cid) as [[Hnot Hlook]|(conn & i & ? & ? & ? & ? & ?)].
      * left. split; [|done]. unfold tracked_ids in *.
        by rewrite filter_cons, Hc.
      * right. exists conn, i. split_and!; [by right|done|done|lia|lia|done].
Qed.

(** Every member of the enumeration that has a remote endpoint has its
    identity in [tracked_ids]. *)
Lemma elem_of_tracked_ids l cid :
  cid ∈ tracked_ids l ↔
  ∃ conn, conn ∈ l ∧ has_remote conn ∧ _get_connection_id conn = cid.
Proof.
  unfold tracked_ids. rewrite list_elem_of_fmap. split.
  - intros (conn & -> & Hin). apply list_elem_of_filter in Hin as [? ?]. eauto.
  - intros (conn & ? & ? & <-). exists conn. split; [done|].
    by apply list_elem_of_filter.
Qed.

(** The dict built by the loop of [update]. *)
Lemma reconciled_lookup os self n l cid :
  let r := reconciled clock os self n l in
  (S (S n) ≤ r.2)%nat
  ∧ (((cid ∉ tracked_ids l) ∧ r.1 !! cid = None)
     ∨ (∃ conn i, conn ∈ l ∧ has_remote conn
          ∧ _get_connection_id conn = cid ∧ (S (S n) ≤ i < r.2)%nat
          ∧ r.1 !! cid
            = Some (tracked_entry os (sampled clock os self n) conn (clock i)))).
Proof.
  unfold reconciled.
  destruct (for_each_track os (sampled clock os self n) l ∅ (S (S n))) as [Hle H].
  split; [done|].
  destruct (H cid) as [[? Hl]|?]; [left|by right].
  by rewrite Hl, lookup_empty.
Qed.

(** The two results of [update]. *)
Lemma update_state os self n :
  (update clock os self n).1.2 =
    match enumerate os with
    | Returned l =>
        set_connections (sampled clock os self n) (reconciled clock os self n l).1
    | Raised _ => sampled clock os self n
    end.
Proof.
  unfold update, sampled, reconciled. rewrite !bind_run.
  rewrite _update_io_counters_reads, _update_process_bandwidth_reads.
  destruct (enumerate os); [|done].
  by rewrite !bind_run.
Qed.

Lemma update_reads os self n :
  (update clock os self n).2 =
    match enumerate os with
    | Returned l => S (reconciled clock os self n l).2
    | Raised _ => S (S n)
    end.
Proof.
  unfold update, sampled, reconciled. rewrite !bind_run.
  rewrite _update_io_counters_reads, _update_process_bandwidth_reads.
  destruct (enumerate os); [|done].
  by rewrite !bind_run.
Qed.

Lemma update_outcome os self n :
  (update clock os self n).1.1 =
    match enumerate os with
    | Returned l =>
        let self' := (update clock os self n).1.2 in
        let pb := values (process_bandwidth self') in
        Returned
          {| snap_connections := get_connections self';
             snap_stats :=
               {| Stats.total_upload_speed := sum (bw_upload <$> pb);
                  Stats.total_download_speed := sum (bw_download <$> pb);
                  Stats.active_connections := size (connections self');
                  Stats.total_bytes_sent := total_bytes_sent self';
                  Stats.total_bytes_received := total_bytes_received self';
                  Stats.uptime :=
                    clock (reconciled clock os self n l).2 - start_time self' |} |}
    | Raised e => Raised e
    end.
Proof.
  rewrite update_state.
  unfold update, sampled, reconciled. rewrite !bind_run.
  rewrite _update_io_counters_reads, _update_process_bandwidth_reads.
  destruct (enumerate os); [|done].
  by rewrite !bind_run.
Qed.

Lemma sampled_frame os self n :
  let self' := sampled clock os self n in
  history_length self' = history_length self
  ∧ bandwidth_history self' = bandwidth_history (_update_io_counters clock os self n).1
  ∧ connections self' = connections self
  ∧ start_time self' = start_time self
  ∧ previous_io_counters self' = Some (net_io_counters os)
  ∧ previous_time self' = Some (clock n).
Proof.
  unfold sampled.
  pose proof (_update_process_bandwidth_frame os
                (_update_io_counters clock os self n).1 (S n)) as H.
  simpl in H. destruct H as (H1 & H2 & H3 & H4 & H5 & H6 & _).
  simpl. by rewrite H1, H2, H3, H4, H5, H6.
Qed.

End steps.

(** ** The bounded history *)

Section history.

Context {A : Type}.

Lemma tail_drop (l : list A) : tail l = drop 1 l.
Proof. by destruct l. Qed.

Lemma deque_append_length (maxlen : nat) (d : list A) x :
  (length d ≤ maxlen)%nat → (length (deque_append maxlen d x) ≤ maxlen)%nat.
Proof.
  intros Hd. unfold deque_append.
  destruct (Nat.ltb_spec maxlen (length (d ++ [x]))) as [Hlt|Hge]; [|done].
  rewrite tail_drop, length_drop, length_app. simpl. lia.
Qed.

(** A deque that holds the last [maxlen] items of [l] holds, after an
    append, the last [maxlen] items of [l ++ [x]]. *)
Lemma deque_append_drop (maxlen : nat) (l : list A) x :
  deque_append maxlen (drop (length l - maxlen) l) x
  = drop (length (l ++ [x]) - maxlen) (l ++ [x]).
Proof.
  unfold deque_append. rewrite !length_app, length_drop. simpl.
  destruct (Nat.ltb_spec maxlen (length l - (length l - maxlen) + 1)) as [Hlt|Hge].
  - replace (length l + 1 - maxlen)%nat with (S (length l - maxlen)) by lia.
    rewrite tail_drop, <-drop_app_le by lia.
    rewrite drop_drop. f_equal. lia.
  - replace (length l - maxlen)%nat with 0%nat by lia.
    by replace (length l + 1 - maxlen)%nat with 0%nat by lia.
Qed.

End history.

(** ** The aggregate sampler and the history *)

Section aggregate.

Variable clock : nat → Qc.

Lemma update_history os self n :
  bandwidth_history (update clock os self n).1.2
  = bandwidth_history (_update_io_counters clock os self n).1.
Proof.
  rewrite update_state.
  destruct (sampled_frame clock os self n) as (_ & H & _).
  by destruct (enumerate os).
Qed.

Lemma update_history_length os self n :
  history_length (update clock os self n).1.2 = history_length self.
Proof.
  rewrite update_state.
  destruct (sampled_frame clock os self n) as (H & _).
  by destruct (enumerate os).
Qed.

Lemma init_state N os n :
  let self := (__init__ clock N os n).1 in
  (__init__ clock N os n).2 = S (S n)
  ∧ history_length self = N
  ∧ bandwidth_history self = []
  ∧ connections self = ∅
  ∧ process_bandwidth self = ∅
  ∧ start_time self = clock n
  ∧ previous_io_counters self = Some (net_io_counters os)
  ∧ previous_time self = Some (clock (S n)).
Proof. done. Qed.

(** Along a run the history holds the last [history_length] points among
    those appended so far. *)
Lemma run_history ticks : ∀ self n before,
  bandwidth_history self = drop (length before - history_length self) before →
  let self' := (run clock ticks self n).1 in
  let all := before ++ appended_points clock ticks self n in
  history_length self' = history_length self
  ∧ bandwidth_history self' = drop (length all - history_length self) all.
Proof.
  induction ticks as [|os ticks IH]; intros self n before Hinv; simpl.
  - by rewrite app_nil_r.
  - rewrite bind_run.
    destruct (update clock os self n) as [r n'] eqn:Hupd. simpl.
    assert (history_length r.2 = history_length self) as Hlen.
    { by rewrite <-(update_history_length os self n), Hupd. }
    assert (bandwidth_history r.2
            = drop (length (before ++ option_list (appended_point clock os self n))
                    - history_length r.2)
                   (before ++ option_list (appended_point clock os self n))) as Hh.
    { rewrite Hlen.
      replace r with (update clock os self n).1 by by rewrite Hupd.
      rewrite update_history, _update_io_counters_history.
      destruct (appended_point clock os self n) as [p|]; simpl.
      - rewrite Hinv. apply deque_append_drop.
      - by rewrite app_nil_r. }
    destruct (IH r.2 n' _ Hh) as [IH1 IH2].
    rewrite <-Hlen, app_assoc. by rewrite IH1.
Qed.

(** Whenever the sent counter is below the previous sample and the clock
    has advanced, the point appended has a negative upload rate. *)
Lemma appended_point_regressed os self n previous t :
  previous_io_counters self = Some previous →
  previous_time self = Some t →
  t < clock n →
  (psutil.bytes_sent (net_io_counters os) < psutil.bytes_sent previous)%Z →
  ∃ p, appended_point clock os self n = Some p ∧ upload p < 0.
Proof.
  intros Hp Ht Hlt Hsent. unfold appended_point. rewrite Hp, Ht.
  assert (0 < clock n - t) as Hpos.
  { apply (Qcplus_lt_mono_r _ _ t). by replace (clock n - t + t) with (clock n) by ring;
      rewrite Qcplus_0_l. }
  rewrite bool_decide_eq_true_2 by done.
  eexists. split; [done|]. simpl.
  set (d := (psutil.bytes_sent (net_io_counters os) - psutil.bytes_sent previous)%Z).
  assert (Z2Qc d < 0) as Hneg.
  { unfold Z2Qc, Qclt. simpl. rewrite Qred_correct. unfold Qlt. simpl. lia. }
  unfold Qcdiv.
  replace 0 with (0 * / (clock n - t)) by ring.
  by apply Qcmult_lt_mono_pos_r; [apply Qcinv_pos|].
Qed.

(** The per-process path clamps its deltas: its rates are never negative. *)
Lemma max0_nonneg x : 0 ≤ max0 x.
Proof. unfold max0. case_bool_decide; [by apply Qclt_le_weak|done]. Qed.

Lemma rate_of_nonneg time_delta current previous :
  0 < time_delta →
  0 ≤ bw_upload (rate_of time_delta current previous)
  ∧ 0 ≤ bw_download (rate_of time_delta current previous).
Proof.
  intros Hpos. unfold rate_of, Qcdiv. simpl.
  split; apply Qcmult_nonneg_nonneg;
    (apply max0_nonneg || by apply Qclt_le_weak, Qcinv_pos).
Qed.

Lemma process_rates_nonneg time_delta current previous pid r :
  0 < time_delta →
  process_rates time_delta current previous !! pid = Some r →
  0 ≤ bw_upload r ∧ 0 ≤ bw_download r.
Proof.
  intros Hpos. unfold process_rates. rewrite map_lookup_imap.
  destruct (current !! pid) as [c|]; simpl; [|done].
  destruct (previous !! pid) as [q|]; simpl; [|done].
  intros [= <-]. by apply rate_of_nonneg.
Qed.

End aggregate.

(** ** Aggregate rates and the history: the claims *)

(** C1 (the code departs from the claim).  The constructor samples the
    counters (sent=1000, recv=2000); one second later [update] samples
    (sent=400, recv=2500), so the sent counter has regressed.  The point
    appended to the history has upload = (400 - 1000) / 1 = -600: the rate
    is the plain quotient and is not clamped at zero. *)
Theorem regressed_counter_gives_negative_upload :
  let m := (__init__ seconds 60%nat (quiet_host 1000 2000) 0%nat).1 in
  let m' := (update seconds (quiet_host 400 2500) m 2%nat).1.2 in
  ∃ p, get_bandwidth_history m' = [p]
       ∧ upload p = Z2Qc (-600) ∧ download p = Z2Qc 500 ∧ upload p < 0.
Proof.
  eexists. split; [vm_compute; reflexivity|].
  split_and!; [by apply Qc_is_canon..|done].
Qed.

(** C2 as stated fails: the constructor has already taken a sample, so the
    first call of [update] finds a baseline and appends a point. *)
Lemma first_update_appends_a_point :
  let m := (__init__ seconds 60%nat (quiet_host 400 900) 0%nat).1 in
  get_bandwidth_history (update seconds (quiet_host 1000 2000) m 2%nat).1.2 ≠ [].
Proof. vm_compute. discriminate. Qed.

(** C2 (amended).  The first sample is the one taken by the constructor, and
    it produces no history point; the first call of [update] is the second
    sample.  When the constructor saw (sent=1000, recv=2000) and [update]
    runs one second later with (sent=1500, recv=2500), the history holds
    exactly one point, with upload = 500 and download = 500. *)
Theorem first_sample_is_taken_at_construction clock N os0 os1 n :
  (0 < N)%nat →
  clock (S (S n)) = clock (S n) + 1 →
  net_io_counters os0 = {| psutil.bytes_sent := 1000; psutil.bytes_recv := 2000 |} →
  net_io_counters os1 = {| psutil.bytes_sent := 1500; psutil.bytes_recv := 2500 |} →
  let m := (__init__ clock N os0 n).1 in
  get_bandwidth_history m = []
  ∧ get_bandwidth_history (update clock os1 m (S (S n))).1.2
    = [ {| timestamp := clock (S (S n)); upload := Z2Qc 500; download := Z2Qc 500 |} ].
Proof.
  intros HN Hclock H0 H1 m. split; [done|].
  unfold get_bandwidth_history.
  rewrite update_history, _update_io_counters_history.
  unfold appended_point. subst m. simpl. rewrite H0, H1. simpl.
  replace (clock (S (S n)) - clock (S n)) with 1 by (rewrite Hclock; ring).
  rewrite bool_decide_eq_true_2 by done.
  unfold deque_append. simpl.
  destruct (Nat.ltb_spec N 1); [lia|].
  assert (∀ x : Qc, x / 1 = x) as Hdiv by (intros x; field; discriminate).
  by rewrite !Hdiv.
Qed.

Lemma first_sample_is_taken_at_construction_witness :
  let m := (__init__ seconds 60%nat (quiet_host 1000 2000) 0%nat).1 in
  get_bandwidth_history m = []
  ∧ get_bandwidth_history (update seconds (quiet_host 1500 2500) m 2%nat).1.2
    = [ {| timestamp := seconds 2%nat; upload := Z2Qc 500; download := Z2Qc 500 |} ].
Proof.
  apply (first_sample_is_taken_at_construction seconds 60%nat
           (quiet_host 1000 2000) (quiet_host 1500 2500) 0%nat).
  - lia.
  - by apply Qc_is_canon.
  - reflexivity.
  - reflexivity.
Defined.

(** C4.  From construction on, the history never holds more than
    [history_length] points; it holds the last [history_length] of the
    points appended so far, oldest first, so that once [history_length + 1]
    points have been appended the oldest of them is gone; and
    [get_bandwidth_history] returns exactly that list. *)
Theorem history_is_bounded_fifo clock N os0 ticks n :
  let m0 := (__init__ clock N os0 n).1 in
  let points := appended_points clock ticks m0 (S (S n)) in
  let m := (run clock ticks m0 (S (S n))).1 in
  (length (bandwidth_history m) ≤ N)%nat
  ∧ get_bandwidth_history m = drop (length points - N) points
  ∧ (length points = S N → get_bandwidth_history m = tail points).
Proof.
  intros m0 points m.
  destruct (run_history clock ticks m0 (S (S n)) []) as [_ H]; [done|].
  simpl in H. fold points m in H.
  assert (get_bandwidth_history m = drop (length points - N) points) as Heq by done.
  split_and!; [|done|].
  - unfold get_bandwidth_history in Heq. rewrite Heq, length_drop. lia.
  - intros Hlen. rewrite Heq, Hlen, tail_drop. f_equal. lia.
Qed.

Lemma history_is_bounded_fifo_witness :
  let ticks := [quiet_host 10 10; quiet_host 30 30; quiet_host 60 60] in
  let m0 := (__init__ seconds 2%nat (quiet_host 0 0) 0%nat).1 in
  let points := appended_points seconds ticks m0 2%nat in
  let m := (run seconds ticks m0 2%nat).1 in
  (length (bandwidth_history m) ≤ 2)%nat
  ∧ get_bandwidth_history m = tail points.
Proof.
  destruct (history_is_bounded_fifo seconds 2%nat (quiet_host 0 0)
              [quiet_host 10 10; quiet_host 30 30; quiet_host 60 60] 0%nat)
    as (Hbound & _ & Hfull).
  split; [exact Hbound|]. apply Hfull. reflexivity.
Defined.

(** With room for two points, the third eligible tick evicts the first
    point (upload 10) and keeps the other two in order. *)
Example third_point_evicts_the_first :
  let ticks := [quiet_host 10 10; quiet_host 30 30; quiet_host 60 60] in
  let m0 := (__init__ seconds 2%nat (quiet_host 0 0) 0%nat).1 in
  upload <$> appended_points seconds ticks m0 2%nat
  = [Z2Qc 10; Z2Qc 20 / Z2Qc 3; Z2Qc 10]
  ∧ upload <$> get_bandwidth_history (run seconds ticks m0 2%nat).1
    = [Z2Qc 20 / Z2Qc 3; Z2Qc 10].
Proof.
  split; vm_compute;
    repeat (apply (f_equal2 cons); [by apply Qc_is_canon|]); done.
Qed.

(** ** The connection table *)

Section table.

Variable clock : nat → Qc.

Lemma elem_of_values {K V} `{Countable K} (m : gmap K V) (v : V) :
  v ∈ values m ↔ ∃ k, m !! k = Some v.
Proof.
  unfold values. rewrite list_elem_of_fmap. split.
  - intros ([k v'] & -> & Hin). exists k. by apply elem_of_map_to_list.
  - intros (k & Hk). exists (k, v). split; [done|]. by apply elem_of_map_to_list.
Qed.

Lemma enumerate_list os l :
  net_connections os = ConnectionsList l → enumerate os = Returned l.
Proof. unfold enumerate. by intros ->. Qed.

Lemma enumerate_permission os e :
  net_connections os = ConnectionsRaises e →
  e = AccessDenied ∨ e = PermissionError →
  enumerate os = Returned [].
Proof. unfold enumerate. by intros -> [-> | ->]. Qed.

(** After a tick whose enumeration is [l], the table is the dict built by
    the loop. *)
Lemma update_connections os self n l :
  enumerate os = Returned l →
  connections (update clock os self n).1.2 = (reconciled clock os self n l).1.
Proof. intros He. by rewrite update_state, He. Qed.

(** Every value of the table is stored under its own [id]. *)
Lemma reconciled_id os self n l cid e :
  (reconciled clock os self n l).1 !! cid = Some e → Entry.id e = cid.
Proof.
  intros He.
  destruct (reconciled_lookup clock os self n l cid) as [_ [[_ Hnone]|H]].
  - congruence.
  - destruct H as (conn & i & _ & _ & <- & _ & Hl).
    rewrite Hl in He. by injection He as <-.
Qed.

Lemma reconciled_dom os self n l cid :
  is_Some ((reconciled clock os self n l).1 !! cid) ↔ cid ∈ tracked_ids l.
Proof.
  destruct (reconciled_lookup clock os self n l cid) as [_ [[Hnot Hnone]|H]].
  - rewrite Hnone. split; [by intros [? ?]|done].
  - destruct H as (conn & i & ? & ? & ? & _ & Hl). rewrite Hl.
    split; [|by eauto]. intros _. apply elem_of_tracked_ids. eauto.
Qed.

End table.

(** C3.  After a tick whose enumeration is [l] (the list returned by the
    host, or the empty list when the host refused with a permission error),
    the table holds exactly the identities of the members of [l] that have
    a remote endpoint: [get_connections] returns an entry for an identity
    if and only if the identity was enumerated in this tick.  In particular
    an identity that is absent from this enumeration is absent from
    [get_connections], whatever the table held before the tick. *)
Theorem table_is_the_latest_enumeration clock os self n l :
  enumerate os = Returned l →
  let self' := (update clock os self n).1.2 in
  dom (connections self') = list_to_set (tracked_ids l)
  ∧ (∀ cid, (∃ e, e ∈ get_connections self' ∧ Entry.id e = cid)
            ↔ cid ∈ tracked_ids l)
  ∧ (∀ cid, cid ∉ tracked_ids l →
            ∀ e, e ∈ get_connections self' → Entry.id e ≠ cid).
Proof.
  intros Hl self'.
  pose proof (update_connections clock os self n l Hl) as Ht.
  fold self' in Ht.
  assert (∀ cid, (∃ e, e ∈ get_connections self' ∧ Entry.id e = cid)
                 ↔ cid ∈ tracked_ids l) as Hiff.
  { intros cid. unfold get_connections. rewrite Ht.
    rewrite <-(reconciled_dom clock os self n l cid). split.
    - intros (e & He & <-). apply elem_of_values in He as [k Hk].
      rewrite (reconciled_id _ _ _ _ _ _ _ Hk). eauto.
    - intros [e He]. exists e. split.
      + apply elem_of_values. eauto.
      + by apply reconciled_id in He. }
  split_and!; [|done|].
  - apply set_eq. intros cid.
    rewrite elem_of_dom, elem_of_list_to_set, Ht. apply reconciled_dom.
  - intros cid Hnot e He Hid. apply Hnot, Hiff. eauto.
Qed.

Lemma table_is_the_latest_enumeration_witness :
  let self' := (update seconds (host 10 10 [] [web; listener]) fresh.1 fresh.2).1.2 in
  dom (connections self') = list_to_set (tracked_ids [web; listener])
  ∧ (∀ cid, (∃ e, e ∈ get_connections self' ∧ Entry.id e = cid)
            ↔ cid ∈ tracked_ids [web; listener])
  ∧ (∀ cid, cid ∉ tracked_ids [web; listener] →
            ∀ e, e ∈ get_connections self' → Entry.id e ≠ cid).
Proof.
  apply (table_is_the_latest_enumeration seconds
           (host 10 10 [] [web; listener]) fresh.1 fresh.2 [web; listener]).
  reflexivity.
Defined.

(** C5.  When the enumeration fails with a permission error
    ([psutil.AccessDenied] or [PermissionError]), the tick treats it as the
    empty enumeration: [update] returns a snapshot (no exception escapes),
    the snapshot lists no connection, and [get_connections] is empty after
    the tick. *)
Theorem permission_error_empties_the_table clock os self n e :
  net_connections os = ConnectionsRaises e →
  e = AccessDenied ∨ e = PermissionError →
  let r := (update clock os self n).1 in
  get_connections r.2 = []
  ∧ ∃ snap, r.1 = Returned snap
            ∧ snap_connections snap = []
            ∧ Stats.active_connections (snap_stats snap) = 0%nat.
Proof.
  intros Hos He r.
  pose proof (enumerate_permission os e Hos He) as Hen.
  assert (connections r.2 = ∅) as Hempty.
  { subst r. by rewrite (update_connections clock os self n [] Hen). }
  assert (get_connections r.2 = []) as Hget.
  { unfold get_connections, values. by rewrite Hempty, map_to_list_empty. }
  split; [done|].
  subst r. rewrite update_outcome, Hen. eexists. split; [done|]. simpl.
  split; [done|]. by rewrite Hempty, map_size_empty.
Qed.

Lemma permission_error_empties_the_table_witness :
  let r := (update seconds (refused_host 4020 20 []) busy.1 busy.2).1 in
  get_connections r.2 = []
  ∧ ∃ snap, r.1 = Returned snap
            ∧ snap_connections snap = []
            ∧ Stats.active_connections (snap_stats snap) = 0%nat.
Proof.
  apply (permission_error_empties_the_table seconds (refused_host 4020 20 [])
           busy.1 busy.2 AccessDenied).
  - reflexivity.
  - left. reflexivity.
Defined.

(** ** Durations *)

Section durations.

Variable clock : nat → Qc.

Lemma tracked_entry_dated os self conn now :
  Entry.start_time (tracked_entry os self conn now)
  + Entry.duration (tracked_entry os self conn now) = now.
Proof.
  unfold tracked_entry. simpl.
  destruct (connections self !! _get_connection_id conn); ring.
Qed.

Lemma update_dated os self n :
  dated clock n (connections self) →
  dated clock (update clock os self n).2 (connections (update clock os self n).1.2).
Proof.
  intros Hd cid e. rewrite update_state, update_reads.
  destruct (enumerate os) as [l|x]; simpl.
  - intros He.
    destruct (reconciled_lookup clock os self n l cid) as [_ [[_ Hnone]|H]];
      [congruence|].
    destruct H as (conn & i & _ & _ & _ & Hi & Hl).
    rewrite Hl in He. injection He as <-.
    exists i. split; [lia|]. apply tracked_entry_dated.
  - destruct (sampled_frame clock os self n) as (_ & _ & -> & _).
    intros He. destruct (Hd cid e He) as (i & Hi & Hc).
    exists i. split; [lia|done].
Qed.

Lemma run_dated ticks : ∀ self n,
  dated clock n (connections self) →
  dated clock (run clock ticks self n).2 (connections (run clock ticks self n).1).
Proof.
  induction ticks as [|os ticks IH]; intros self n Hd; simpl; [done|].
  rewrite bind_run. apply IH, update_dated, Hd.
Qed.

Lemma Qcle_minus_r (x y z : Qc) : x ≤ y → x - z ≤ y - z.
Proof. intros H. unfold Qcminus. by apply Qcplus_le_compat. Qed.

End durations.

Lemma seconds_mono (i j : nat) : (i ≤ j)%nat → seconds i ≤ seconds j.
Proof.
  intros Hij. unfold seconds, Z2Qc, Qcle. simpl.
  rewrite !Qred_correct. unfold Qle. simpl. lia.
Qed.

(** C9.  Take a monitor reached from construction by any run of ticks, and
    then one more tick that completes with enumeration [l].  An identity that is in
    the table before the tick and again after it keeps its start time, its
    duration is a clock reading of this tick minus that start time, and,
    when the clock never goes backwards, its duration has not decreased.
    An identity that was not in the table before the tick has duration 0
    and a clock reading of this tick as start time. *)
Theorem duration_is_non_decreasing clock N os0 n ticks os l cid e2 :
  (∀ i j, (i ≤ j)%nat → clock i ≤ clock j) →
  enumerate os = Returned l →
  let r := run clock ticks (__init__ clock N os0 n).1 (S (S n)) in
  let r' := update clock os r.1 r.2 in
  connections r'.1.2 !! cid = Some e2 →
  ∃ i, (r.2 ≤ i < r'.2)%nat
    ∧ match connections r.1 !! cid with
      | Some e1 =>
          Entry.start_time e2 = Entry.start_time e1
          ∧ Entry.duration e2 = clock i - Entry.start_time e1
          ∧ Entry.duration e1 ≤ Entry.duration e2
      | None =>
          Entry.start_time e2 = clock i ∧ Entry.duration e2 = 0
      end.
Proof.
  intros Hmono Hl r r' He2.
  assert (dated clock r.2 (connections r.1)) as Hd.
  { apply run_dated. intros ? ? Hx.
    destruct (init_state clock N os0 n) as (_ & _ & _ & Hc & _).
    by rewrite Hc, lookup_empty in Hx. }
  rename Hl into Hen.
  subst r'. rewrite update_connections with (l := l) in He2 by done.
  rewrite update_reads, Hen.
  destruct (reconciled_lookup clock os r.1 r.2 l cid) as [_ [[_ Hnone]|H]];
    [congruence|].
  destruct H as (conn & i & _ & _ & Hid & Hi & Hlook).
  rewrite Hlook in He2. injection He2 as <-.
  exists i. split; [lia|].
  unfold tracked_entry. simpl. rewrite Hid.
  destruct (sampled_frame clock os r.1 r.2) as (_ & _ & -> & _).
  destruct (connections r.1 !! cid) as [e1|] eqn:He1; [|done].
  split_and!; [done..|].
  destruct (Hd cid e1 He1) as (j & Hj & Hdate).
  replace (Entry.duration e1) with (clock j - Entry.start_time e1)
    by (rewrite <-Hdate; ring).
  apply Qcle_minus_r, Hmono. lia.
Qed.

Lemma duration_is_non_decreasing_witness :
  let r := run seconds [host 10 10 [] [web]]
             (__init__ seconds 60%nat (quiet_host 0 0) 0%nat).1 2%nat in
  let r' := update seconds (host 20 20 [] [web]) r.1 r.2 in
  ∃ i, (r.2 ≤ i < r'.2)%nat
    ∧ match connections r.1 !! _get_connection_id web with
      | Some e1 =>
          Entry.start_time web_after_two_ticks = Entry.start_time e1
          ∧ Entry.duration web_after_two_ticks = seconds i - Entry.start_time e1
          ∧ Entry.duration e1 ≤ Entry.duration web_after_two_ticks
      | None =>
          Entry.start_time web_after_two_ticks = seconds i
          ∧ Entry.duration web_after_two_ticks = 0
      end.
Proof.
  apply (duration_is_non_decreasing seconds 60%nat (quiet_host 0 0) 0%nat
           [host 10 10 [] [web]] (host 20 20 [] [web]) [web]
           (_get_connection_id web) web_after_two_ticks).
  - apply seconds_mono.
  - reflexivity.
  - vm_compute. reflexivity.
Defined.

(** ** Identity strings *)

Section identities.

Lemma append_cons a (s1 s2 : string) : String a s1 +:+ s2 = String a (s1 +:+ s2).
Proof. done. Qed.

Lemma append_assoc (s1 s2 s3 : string) : (s1 +:+ s2) +:+ s3 = s1 +:+ s2 +:+ s3.
Proof. induction s1 as [|a s1 IH]; [done|]. by rewrite !append_cons, IH. Qed.

Lemma mentions_app c s1 s2 :
  mentions c (s1 +:+ s2) = mentions c s1 || mentions c s2.
Proof.
  induction s1 as [|a s1 IH]; [done|].
  rewrite append_cons. simpl. by rewrite IH, orb_assoc.
Qed.

(** What follows the last occurrence of a separator is determined by the
    whole string. *)
Lemma last_field c (s : string) : ∀ s' p p',
  mentions c p = false → mentions c p' = false →
  s +:+ String c p = s' +:+ String c p' → p = p'.
Proof.
  induction s as [|a s IH]; intros [|a' s'] p p' Hp Hp' Heq;
    rewrite ?append_cons in Heq; change ("" +:+ ?x) with x in Heq.
  - by injection Heq.
  - injection Heq as <- ->. rewrite mentions_app in Hp. simpl in Hp.
    rewrite bool_decide_eq_true_2 in Hp by done.
    by rewrite orb_true_r in Hp.
  - injection Heq as -> <-. rewrite mentions_app in Hp'. simpl in Hp'.
    rewrite bool_decide_eq_true_2 in Hp' by done.
    by rewrite orb_true_r in Hp'.
  - injection Heq as -> Heq. by apply (IH s').
Qed.

(** The decimal text of a number is made of digits and [-]. *)
Lemma pretty_N_go_mentions c :
  (∀ x, pretty_N_char x ≠ c) →
  ∀ x s, mentions c s = false → mentions c (pretty_N_go x s) = false.
Proof.
  intros Hc x. induction (N.lt_wf_0 x) as [x _ IH]. intros s Hs.
  assert (x = 0 ∨ 0 < x)%N as [->|Hx] by lia.
  - by rewrite pretty_N_go_0.
  - rewrite pretty_N_go_step by done. apply IH.
    + apply N.div_lt; lia.
    + simpl. rewrite Hs, orb_false_r. apply bool_decide_eq_false_2, Hc.
Qed.

Lemma pretty_Z_mentions c (z : Z) :
  (∀ x, pretty_N_char x ≠ c) → c ≠ "-"%char →
  mentions c (pretty z) = false.
Proof.
  intros Hc Hdash.
  assert (∀ x : N, mentions c (pretty x) = false) as HN.
  { intros x. unfold pretty, pretty_N. case_decide.
    - simpl. rewrite orb_false_r. apply bool_decide_eq_false_2.
      apply (Hc 0%N).
    - by apply pretty_N_go_mentions. }
  unfold pretty, pretty_Z. destruct z as [|p|p].
  - simpl. rewrite orb_false_r. apply bool_decide_eq_false_2, (Hc 0%N).
  - apply HN.
  - rewrite mentions_app. change (pretty p) with (pretty (N.pos p)).
    rewrite HN, orb_false_r. simpl. rewrite orb_false_r.
    apply bool_decide_eq_false_2. congruence.
Qed.

Lemma pretty_N_char_not_underscore x : pretty_N_char x ≠ "_"%char.
Proof. unfold pretty_N_char. by repeat case_match. Qed.

Lemma pretty_N_char_not_N x : pretty_N_char x ≠ "N"%char.
Proof. unfold pretty_N_char. by repeat case_match. Qed.

Lemma str_pid_no_underscore p : mentions "_" (str_pid p) = false.
Proof.
  destruct p as [z|]; [|done]. simpl.
  apply pretty_Z_mentions; [apply pretty_N_char_not_underscore|done].
Qed.

Lemma str_pid_inj p q : str_pid p = str_pid q → p = q.
Proof.
  destruct p as [z|], q as [z'|]; simpl; intros Heq; [| | |done].
  - f_equal. by apply (inj pretty).
  - pose proof (pretty_Z_mentions "N" z pretty_N_char_not_N) as H.
    rewrite Heq in H. by specialize (H ltac:(done)).
  - pose proof (pretty_Z_mentions "N" z' pretty_N_char_not_N) as H.
    rewrite <-Heq in H. by specialize (H ltac:(done)).
Qed.

(** Two sockets with the same identity string have the same [pid]. *)
Lemma _get_connection_id_pid c c' :
  _get_connection_id c = _get_connection_id c' → psutil.pid c = psutil.pid c'.
Proof.
  assert (∀ x, _get_connection_id x
               = (psutil.name (psutil.type x) +:+ "_"
                  +:+ from_option endpoint "unknown" (psutil.laddr x) +:+ "_"
                  +:+ from_option endpoint "unknown" (psutil.raddr x))
                 +:+ String "_" (str_pid (psutil.pid x))) as Hshape.
  { intros x. unfold _get_connection_id. by rewrite !append_assoc. }
  rewrite !Hshape. intros Heq. apply str_pid_inj.
  eapply last_field, Heq; apply str_pid_no_underscore.
Qed.

End identities.

(** ** Owners and rates of the tracked sockets *)

Section owners.

Variable clock : nat → Qc.

(** The table entry of an enumerated socket is the dict built for a
    socket of the enumeration that has the same identity and the same
    [pid]. *)
Lemma update_entry os self n l conn :
  enumerate os = Returned l →
  conn ∈ l → has_remote conn →
  ∃ conn' i,
    conn' ∈ l ∧ _get_connection_id conn' = _get_connection_id conn
    ∧ psutil.pid conn' = psutil.pid conn
    ∧ connections (update clock os self n).1.2 !! _get_connection_id conn
      = Some (tracked_entry os (sampled clock os self n) conn' (clock i)).
Proof.
  intros Hen Hin Hr. rewrite (update_connections clock os self n l Hen).
  destruct (reconciled_lookup clock os self n l (_get_connection_id conn))
    as [_ [[Hnot _]|H]].
  - destruct Hnot. apply elem_of_tracked_ids. eauto.
  - destruct H as (conn' & i & ? & _ & Hid & _ & Hl).
    exists conn', i. split_and!; [done..| |done].
    by apply _get_connection_id_pid.
Qed.

Lemma update_process_bandwidth_sampled os self n :
  process_bandwidth (update clock os self n).1.2
  = process_bandwidth (sampled clock os self n).
Proof. rewrite update_state. by destruct (enumerate os). Qed.

Lemma _get_connection_id_None conn :
  psutil.pid conn = None →
  ∃ prefix, _get_connection_id conn = prefix +:+ "_None".
Proof.
  intros Hp. unfold _get_connection_id. rewrite Hp.
  exists (psutil.name (psutil.type conn) +:+ "_"
          +:+ from_option endpoint "unknown" (psutil.laddr conn) +:+ "_"
          +:+ from_option endpoint "unknown" (psutil.raddr conn)).
  by rewrite !append_assoc.
Qed.

End owners.

(** C10.  A socket enumerated with a remote endpoint and with no owner
    ([pid] is [None]) is reported with [pid = 0] and
    [process_name = "Unknown"], and with the rates that the per-process
    table holds for pid 0 (zero when it has no entry for pid 0), which are
    also the rates reported for the sockets of a process whose pid is 0;
    its identity string nevertheless ends with the text of [None]. *)
Theorem unknown_owner_is_reported_as_pid_zero clock os self n l conn :
  enumerate os = Returned l →
  conn ∈ l → is_Some (psutil.raddr conn) → psutil.pid conn = None →
  let self' := (update clock os self n).1.2 in
  let rate0 := default no_rate (process_bandwidth self' !! 0%Z) in
  ∃ e, connections self' !! _get_connection_id conn = Some e
    ∧ e ∈ get_connections self'
    ∧ Entry.pid e = 0%Z
    ∧ Entry.process_name e = "Unknown"
    ∧ Entry.upload_speed e = bw_upload rate0
    ∧ Entry.download_speed e = bw_download rate0
    ∧ (∃ prefix, Entry.id e = prefix +:+ "_None")
    ∧ (∀ conn0 e0,
         conn0 ∈ l → is_Some (psutil.raddr conn0) → psutil.pid conn0 = Some 0%Z →
         connections self' !! _get_connection_id conn0 = Some e0 →
         Entry.pid e0 = Entry.pid e
         ∧ Entry.upload_speed e0 = Entry.upload_speed e
         ∧ Entry.download_speed e0 = Entry.download_speed e).
Proof.
  intros Hen Hin Hr Hp self' rate0. subst self' rate0.
  assert (∀ c, is_Some (psutil.raddr c) → has_remote c) as Hrem.
  { intros c Hc. unfold has_remote. by apply bool_decide_pack. }
  destruct (update_entry clock os self n l conn Hen Hin (Hrem _ Hr))
    as (conn' & i & _ & Hid & Hpid & Hlook).
  rewrite Hp in Hpid. rewrite update_process_bandwidth_sampled.
  eexists. split; [exact Hlook|].
  split; [apply elem_of_values; eauto|].
  unfold tracked_entry at 2 3 4 5 6. simpl. rewrite Hpid. simpl.
  split_and!; [done..| |].
  - rewrite Hid. by apply _get_connection_id_None.
  - intros conn0 e0 Hin0 Hr0 Hp0 Hlook0.
    destruct (update_entry clock os self n l conn0 Hen Hin0 (Hrem _ Hr0))
      as (conn0' & j & _ & _ & Hpid0 & Hlook0').
    rewrite Hlook0' in Hlook0. injection Hlook0 as <-.
    unfold tracked_entry. simpl. by rewrite Hpid0, Hp0.
Qed.

Lemma unknown_owner_is_reported_as_pid_zero_witness :
  let self' := (update seconds idle_tick idle.1 idle.2).1.2 in
  let rate0 := default no_rate (process_bandwidth self' !! 0%Z) in
  ∃ e, connections self' !! _get_connection_id orphan = Some e
    ∧ e ∈ get_connections self'
    ∧ Entry.pid e = 0%Z
    ∧ Entry.process_name e = "Unknown"
    ∧ Entry.upload_speed e = bw_upload rate0
    ∧ Entry.download_speed e = bw_download rate0
    ∧ (∃ prefix, Entry.id e = prefix +:+ "_None")
    ∧ (∀ conn0 e0,
         conn0 ∈ [orphan; web] → is_Some (psutil.raddr conn0) →
         psutil.pid conn0 = Some 0%Z →
         connections self' !! _get_connection_id conn0 = Some e0 →
         Entry.pid e0 = Entry.pid e
         ∧ Entry.upload_speed e0 = Entry.upload_speed e
         ∧ Entry.download_speed e0 = Entry.download_speed e).
Proof.
  apply (unknown_owner_is_reported_as_pid_zero seconds idle_tick idle.1 idle.2
           [orphan; web] orphan).
  - reflexivity.
  - left.
  - simpl. eauto.
  - reflexivity.
Defined.

(** On that tick the socket without owner is charged the rates of pid 0. *)
Example orphan_is_charged_to_pid_zero :
  (λ e, (Entry.pid e, Entry.process_name e, Entry.upload_speed e, Entry.id e))
    <$> connections (update seconds idle_tick idle.1 idle.2).1.2
          !! _get_connection_id orphan
  = Some (0%Z, "Unknown", Z2Qc 200, "SOCK_DGRAM_10.0.0.2:50001_1.1.1.1:53_None").
Proof.
  vm_compute. do 2 f_equal. f_equal. by apply Qc_is_canon.
Qed.

(** ** The per-process sampler *)

Section sampler.

Variable clock : nat → Qc.

Lemma _update_process_bandwidth_failed os self n :
  sampler_failed os → _update_process_bandwidth clock os self n = (self, S n).
Proof.
  unfold _update_process_bandwidth, time_time. rewrite bind_run. simpl.
  intros [[e ->]|(rc & rows & -> & Hrc)]; [done|].
  by rewrite bool_decide_eq_true_2.
Qed.

(** The rates that [update] attaches to an entry are those of the table
    as it is after the sampler ran. *)
Lemma update_entry_rates os self n l cid e :
  enumerate os = Returned l →
  connections (update clock os self n).1.2 !! cid = Some e →
  let rate := default no_rate
                (process_bandwidth (update clock os self n).1.2 !! Entry.pid e) in
  Entry.upload_speed e = bw_upload rate
  ∧ Entry.download_speed e = bw_download rate.
Proof.
  intros Hen He. rewrite update_process_bandwidth_sampled.
  rewrite (update_connections clock os self n l Hen) in He.
  destruct (reconciled_lookup clock os self n l cid) as [_ [[_ Hnone]|H]];
    [congruence|].
  destruct H as (conn & i & _ & _ & _ & _ & Hl).
  rewrite Hl in He. by injection He as <-.
Qed.

(** The only exception that escapes [update] is one raised by the
    enumeration that is not a permission error. *)
Lemma update_raised os self n e :
  (update clock os self n).1.1 = Raised e →
  net_connections os = ConnectionsRaises e
  ∧ e ≠ AccessDenied ∧ e ≠ PermissionError.
Proof.
  rewrite update_outcome. unfold enumerate.
  destruct (net_connections os) as [[]|l]; simpl; intros He; try done;
    by injection He as <-.
Qed.

(** The table of rates after [update] depends on the host only through
    the outcome of [nettop]. *)
Lemma sampled_process_bandwidth os self n :
  process_bandwidth (sampled clock os self n)
  = process_bandwidth (_update_process_bandwidth clock os self (S n)).1.
Proof.
  unfold sampled, _update_process_bandwidth, time_time. rewrite !bind_run. simpl.
  destruct (nettop os); [done|]. by case_bool_decide.
Qed.

End sampler.

(** C6.  On a tick where the per-process sampler fails (the tool raises, is
    missing or times out, or exits with a non-zero code) the sampler step
    leaves the whole monitor as it was, so the table of rates after the
    tick is the table of before, not an emptied or zeroed one; the entries
    of the tick carry the rates of that old table; and no exception of the
    sampler escapes: [update] raises only what the enumeration raised. *)
Theorem sampler_failure_keeps_the_rates clock os self n :
  sampler_failed os →
  let r := (update clock os self n).1 in
  (_update_process_bandwidth clock os self n).1 = self
  ∧ process_bandwidth r.2 = process_bandwidth self
  ∧ (∀ l cid e,
       enumerate os = Returned l →
       connections r.2 !! cid = Some e →
       let rate := default no_rate (process_bandwidth self !! Entry.pid e) in
       Entry.upload_speed e = bw_upload rate
       ∧ Entry.download_speed e = bw_download rate)
  ∧ (∀ e, r.1 = Raised e → net_connections os = ConnectionsRaises e).
Proof.
  intros Hfail r. subst r.
  assert (process_bandwidth (update clock os self n).1.2 = process_bandwidth self)
    as Hpb.
  { rewrite update_process_bandwidth_sampled, sampled_process_bandwidth.
    by rewrite _update_process_bandwidth_failed. }
  split_and!.
  - by rewrite _update_process_bandwidth_failed.
  - done.
  - intros l cid e Hl He. rewrite <-Hpb.
    by apply (update_entry_rates clock os self n l cid e Hl).
  - intros e He. by apply update_raised in He as [? _].
Qed.

Lemma sampler_failure_keeps_the_rates_witness :
  let os := quiet_host 4012 12 in
  let r := (update seconds os busy.1 busy.2).1 in
  (_update_process_bandwidth seconds os busy.1 busy.2).1 = busy.1
  ∧ process_bandwidth r.2 = process_bandwidth busy.1
  ∧ (∀ l cid e,
       enumerate os = Returned l →
       connections r.2 !! cid = Some e →
       let rate := default no_rate (process_bandwidth busy.1 !! Entry.pid e) in
       Entry.upload_speed e = bw_upload rate
       ∧ Entry.download_speed e = bw_download rate)
  ∧ (∀ e, r.1 = Raised e → net_connections os = ConnectionsRaises e).
Proof.
  apply (sampler_failure_keeps_the_rates seconds (quiet_host 4012 12) busy.1 busy.2).
  left. exists FileNotFoundError. reflexivity.
Defined.

(** In that run the table of rates was not empty when the sampler failed. *)
Example rates_before_the_failure :
  process_bandwidth busy.1 !! 4242%Z
  = Some {| bw_upload := Z2Qc 175; bw_download := Z2Qc 75 |}.
Proof.
  vm_compute. do 2 f_equal; by apply Qc_is_canon.
Qed.

(** ** Totals *)

Section totals.

Lemma foldl_Qcplus (l : list Qc) : ∀ acc, foldl Qcplus acc l = acc + sum l.
Proof.
  unfold sum. induction l as [|x l IH]; intros acc; simpl.
  - ring.
  - rewrite (IH (acc + x)), (IH (0 + x)). ring.
Qed.

Lemma sum_cons x (l : list Qc) : sum (x :: l) = x + sum l.
Proof. unfold sum at 1. simpl. rewrite foldl_Qcplus. ring. Qed.

(** The value of [sum] does not depend on the order of the items, hence
    not on the iteration order of the dict. *)
Lemma sum_Permutation (l1 l2 : list Qc) : l1 ≡ₚ l2 → sum l1 = sum l2.
Proof.
  induction 1 as [|x l1 l2 _ IH|x y l|l1 l2 l3 _ IH1 _ IH2].
  - done.
  - by rewrite !sum_cons, IH.
  - rewrite !sum_cons. ring.
  - by rewrite IH1.
Qed.

(** [sum] over the values of a dict is the sum over its keys: a new key
    adds its own value. *)
Lemma sum_values_insert {V} (f : V → Qc) (m : gmap Z V) (k : Z) (v : V) :
  m !! k = None →
  sum (f <$> values (<[k := v]> m)) = f v + sum (f <$> values m).
Proof.
  intros Hk. rewrite <-sum_cons. apply sum_Permutation.
  unfold values. by rewrite map_to_list_insert.
Qed.

Lemma sum_values_empty {V} (f : V → Qc) : sum (f <$> values (∅ : gmap Z V)) = 0.
Proof. unfold values. by rewrite map_to_list_empty. Qed.

End totals.

(** C7.  The upload and download rates reported in the stats, both in the
    snapshot returned by [update] and by [get_stats] afterwards, are the
    sums of the upload and download values of the per-process table over
    all its entries.  They do not depend on the aggregate counters: a tick
    that differs only in the aggregate counters read reports the same two
    rates.  The aggregate counters give the cumulative byte totals of the
    stats. *)
Theorem stats_rates_sum_the_process_table clock os self n snap :
  (update clock os self n).1.1 = Returned snap →
  let self' := (update clock os self n).1.2 in
  let up := sum (bw_upload <$> values (process_bandwidth self')) in
  let down := sum (bw_download <$> values (process_bandwidth self')) in
  Stats.total_upload_speed (snap_stats snap) = up
  ∧ Stats.total_download_speed (snap_stats snap) = down
  ∧ (∀ k, Stats.total_upload_speed (get_stats clock self' k).1 = up
          ∧ Stats.total_download_speed (get_stats clock self' k).1 = down)
  ∧ (∀ io snap',
       (update clock (with_counters os io) self n).1.1 = Returned snap' →
       Stats.total_upload_speed (snap_stats snap') = up
       ∧ Stats.total_download_speed (snap_stats snap') = down)
  ∧ Stats.total_bytes_sent (snap_stats snap) = psutil.bytes_sent (net_io_counters os)
  ∧ Stats.total_bytes_received (snap_stats snap)
    = psutil.bytes_recv (net_io_counters os).
Proof.
  intros Hsnap self' up down. subst up down self'.
  assert (∀ o s, (update clock o self n).1.1 = Returned s →
     Stats.total_upload_speed (snap_stats s)
     = sum (bw_upload <$> values (process_bandwidth (update clock o self n).1.2))
     ∧ Stats.total_download_speed (snap_stats s)
       = sum (bw_download <$> values (process_bandwidth (update clock o self n).1.2)))
    as Hrates.
  { intros o s Hs. rewrite update_outcome in Hs.
    destruct (enumerate o); [|done]. by injection Hs as <-. }
  destruct (Hrates os snap Hsnap) as [Hup Hdown].
  split_and!; [done..| | | |].
  - intros k. unfold get_stats, time_time. by rewrite bind_run.
  - intros io snap' Hsnap'.
    destruct (Hrates _ snap' Hsnap') as [-> ->].
    rewrite !update_process_bandwidth_sampled, !sampled_process_bandwidth.
    done.
  - rewrite update_outcome in Hsnap.
    destruct (enumerate os) eqn:Hen; [|done]. injection Hsnap as <-. simpl.
    rewrite update_state, Hen. simpl. unfold sampled.
    destruct (_update_process_bandwidth_frame clock os
                (_update_io_counters clock os self n).1 (S n))
      as (_ & _ & _ & _ & _ & _ & -> & _).
    done.
  - rewrite update_outcome in Hsnap.
    destruct (enumerate os) eqn:Hen; [|done]. injection Hsnap as <-. simpl.
    rewrite update_state, Hen. simpl. unfold sampled.
    destruct (_update_process_bandwidth_frame clock os
                (_update_io_counters clock os self n).1 (S n))
      as (_ & _ & _ & _ & _ & _ & _ & ->).
    done.
Qed.

(** ** The broadcast *)

Section broadcast.

Import Broadcaster.

Variable send_text : WebSocket → message → outcome unit.
Variable meanwhile : WebSocket → list operation.

Lemma perform_quiet (s : gset WebSocket) op :
  writes s op = false → perform s op = s.
Proof.
  destruct op as [w|w]; simpl; intros H; apply bool_decide_eq_false in H;
    apply set_eq; intros x.
  - rewrite elem_of_union, elem_of_singleton. split; [|tauto].
    intros [Hx| ->]; [done|]. by destruct (decide (w ∈ s)).
  - rewrite elem_of_difference, elem_of_singleton. split; [tauto|].
    intros Hx. split; [done|]. by intros ->.
Qed.

(** Operations that do not write leave the set as it was. *)
Lemma interfere_quiet ops : ∀ s : gset WebSocket,
  touched ops s = false → interfere ops s = s.
Proof.
  induction ops as [|op ops IH]; intros s H; [done|].
  simpl in H. apply orb_false_iff in H as [Hop Hops].
  unfold interfere in *. simpl. rewrite (perform_quiet s op Hop) in *. by apply IH.
Qed.

(** A set of another size has been written to. *)
Lemma resized_touched ops (s : gset WebSocket) :
  size (interfere ops s) ≠ size s → touched ops s = true.
Proof.
  intros H. destruct (touched ops s) eqn:Ht; [done|].
  by rewrite interfere_quiet in H.
Qed.

Lemma next_same (s : gset WebSocket) st :
  live st = s → written st = false → next s st = None.
Proof.
  intros Hl Hw. unfold next. rewrite Hl, Hw.
  by rewrite bool_decide_eq_false_2 by (intros H; by apply H).
Qed.

Lemma next_size (initial : gset WebSocket) st :
  size (live st) ≠ size initial → next initial st = Some SizeChanged.
Proof. intros H. unfold next. by rewrite bool_decide_eq_true_2. Qed.

Lemma accepts_send msg c :
  accepts send_text msg c
  = match send_text c msg with Returned _ => true | Raised _ => false end.
Proof. done. Qed.

(** The set [disconnected] after the deliveries to [l]. *)
Lemma disconnected_cons msg c (l : list WebSocket) (d : gset WebSocket) :
  match send_text c msg with
  | Returned _ => d
  | Raised _ => d ∪ {[c]}
  end ∪ list_to_set (filter (λ x, ¬ accepts send_text msg x) l)
  = d ∪ list_to_set (filter (λ x, ¬ accepts send_text msg x) (c :: l)).
Proof.
  rewrite filter_cons. pose proof (accepts_send msg c) as Hacc.
  destruct (send_text c msg).
  - rewrite decide_False; [done|]. rewrite Hacc. by intros H.
  - rewrite decide_True; [|rewrite Hacc; by intros H].
    by rewrite list_to_set_cons, (assoc_L (∪)).
Qed.

(** As long as nothing writes to the shared set during the deliveries, the
    loop goes through all the members. *)
Lemma send_all_undisturbed msg (initial : gset WebSocket) (todo : list WebSocket) :
  ∀ st,
    live st = initial →
    written st = false →
    (∀ c, c ∈ todo → touched (meanwhile c) initial = false) →
    send_all send_text meanwhile msg initial todo st
    = (Exhausted,
       {| live := initial;
          written := false;
          tried := tried st ++ todo;
          disconnected :=
            disconnected st
            ∪ list_to_set (filter (λ c, ¬ accepts send_text msg c) todo) |}).
Proof.
  induction todo as [|c todo IH]; intros [l w t d] Hlive Hw Hquiet;
    simpl in *; subst l w.
  - rewrite next_same by done. rewrite app_nil_r. by rewrite (right_id_L ∅ (∪)).
  - assert (touched (meanwhile c) initial = false) as Hc by (apply Hquiet; left).
    rewrite next_same by done. rewrite IH; simpl.
    + by rewrite <-app_assoc, disconnected_cons.
    + by apply interfere_quiet.
    + done.
    + intros x Hx. apply Hquiet. by right.
Qed.

(** When the shared set changes size during a delivery, the next step of
    the iterator raises and the loop is abandoned. *)
Lemma send_all_size_changed msg (initial : gset WebSocket) c rest
    (before : list WebSocket) :
  ∀ st,
    live st = initial →
    written st = false →
    (∀ x, x ∈ before → touched (meanwhile x) initial = false) →
    size (interfere (meanwhile c) initial) ≠ size initial →
    send_all send_text meanwhile msg initial (before ++ c :: rest) st
    = (SizeChanged,
       {| live := interfere (meanwhile c) initial;
          written := true;
          tried := tried st ++ before ++ [c];
          disconnected :=
            disconnected st
            ∪ list_to_set (filter (λ x, ¬ accepts send_text msg x) (before ++ [c])) |}).
Proof.
  induction before as [|b before IH]; intros [l w t d] Hlive Hw Hquiet Hsize;
    simpl in *; subst l w.
  - rewrite next_same by done.
    assert (∀ st', live st' = interfere (meanwhile c) initial →
              send_all send_text meanwhile msg initial rest st' = (SizeChanged, st'))
      as Hstop.
    { intros st' Hst'. destruct rest; simpl; rewrite next_size; try done;
        by rewrite Hst'. }
    rewrite Hstop by done. rewrite (resized_touched _ _ Hsize). f_equal. f_equal.
    rewrite <-(disconnected_cons msg c [] d).
    by rewrite filter_nil, list_to_set_nil, (right_id_L ∅ (∪)).
  - assert (touched (meanwhile b) initial = false) as Hb by (apply Hquiet; left).
    rewrite next_same by done. rewrite IH; simpl.
    + by rewrite <-app_assoc, disconnected_cons.
    + by apply interfere_quiet.
    + done.
    + intros x Hx. apply Hquiet. by right.
    + done.
Qed.

(** A broadcast during which no endpoint writes to the shared set. *)
Lemma publish_undisturbed data (active : gset WebSocket) :
  (∀ c, c ∈ active → touched (meanwhile c) active = false) →
  let msg := {| msg_type := "update"; msg_data := data |} in
  publish send_text meanwhile data active
  = {| ended := if bool_decide (active = ∅) then None else Some Exhausted;
       attempted := elements active;
       active_after :=
         active ∖ list_to_set (filter (λ c, ¬ accepts send_text msg c)
                                      (elements active)) |}.
Proof.
  intros Hquiet msg. unfold publish. case_bool_decide as Hempty.
  - rewrite Hempty, elements_empty. simpl. by rewrite difference_diag_L.
  - rewrite send_all_undisturbed; simpl; [|done|done|].
    + by rewrite (left_id_L ∅ (∪)).
    + intros c Hc. apply Hquiet. by apply elem_of_elements.
Qed.

(** A broadcast abandoned at the delivery to [c]: the members before [c] and
    [c] itself have been tried, the others not, and nobody is removed. *)
Lemma publish_size_changed data (active : gset WebSocket) before c rest :
  elements active = before ++ c :: rest →
  (∀ x, x ∈ before → touched (meanwhile x) active = false) →
  size (interfere (meanwhile c) active) ≠ size active →
  publish send_text meanwhile data active
  = {| ended := Some SizeChanged;
       attempted := before ++ [c];
       active_after := interfere (meanwhile c) active |}.
Proof.
  intros Hel Hquiet Hsize. unfold publish.
  rewrite bool_decide_eq_false_2.
  - by rewrite Hel, send_all_size_changed.
  - intros ->. rewrite elements_empty in Hel. by destruct before.
Qed.

End broadcast.

(** X17.  A broadcast of [monitor_network] during which no endpoint writes
    to the shared set tries every member once, in one pass that is not
    abandoned; it removes the members whose delivery raised and only them;
    a later undisturbed broadcast, whatever it sends, tries none of the
    removed members; and the subscriber count of the health answer has gone
    down by the number of failed deliveries. *)
Theorem undisturbed_broadcast_removes_the_failed send_text meanwhile data
    (active : gset Broadcaster.WebSocket) :
  (∀ c, c ∈ active → Broadcaster.touched (meanwhile c) active = false) →
  let msg := {| Broadcaster.msg_type := "update"; Broadcaster.msg_data := data |} in
  let r := Broadcaster.publish send_text meanwhile data active in
  let failed :=
    filter (λ c, ¬ Broadcaster.accepts send_text msg c) (Broadcaster.attempted r) in
  Broadcaster.ended r ≠ Some Broadcaster.SizeChanged
  ∧ NoDup (Broadcaster.attempted r)
  ∧ (∀ c, c ∈ Broadcaster.attempted r ↔ c ∈ active)
  ∧ (∀ c, c ∈ Broadcaster.active_after r
          ↔ c ∈ active ∧ Broadcaster.accepts send_text msg c)
  ∧ (∀ send_text' data' c,
       c ∈ Broadcaster.attempted
             (Broadcaster.publish send_text' (λ _, []) data'
                (Broadcaster.active_after r)) →
       c ∈ active ∧ Broadcaster.accepts send_text msg c)
  ∧ (Broadcaster.health (Broadcaster.active_after r) + length failed
     = Broadcaster.health active)%nat.
Proof.
  intros Hquiet msg r failed. subst r failed.
  rewrite (publish_undisturbed send_text meanwhile data active Hquiet).
  simpl. fold msg.
  set (failed := filter (λ c, ¬ Broadcaster.accepts send_text msg c) (elements active)).
  assert (∀ c, c ∈ active ∖ list_to_set failed
               ↔ c ∈ active ∧ Broadcaster.accepts send_text msg c) as Hleft.
  { intros c. rewrite elem_of_difference, elem_of_list_to_set.
    unfold failed. rewrite list_elem_of_filter, elem_of_elements.
    destruct (Broadcaster.accepts send_text msg c); simpl; tauto. }
  split_and!.
  - by case_bool_decide.
  - apply NoDup_elements.
  - intros c. apply elem_of_elements.
  - done.
  - intros send_text' data' c.
    rewrite (publish_undisturbed send_text' (λ _, []) data'
               (active ∖ list_to_set failed)) by done.
    simpl. rewrite elem_of_elements. apply Hleft.
  - unfold Broadcaster.health.
    assert (NoDup failed) as Hnd by apply NoDup_filter, NoDup_elements.
    assert (list_to_set failed ⊆ active) as Hsub.
    { intros c. rewrite elem_of_list_to_set. unfold failed.
      rewrite list_elem_of_filter, elem_of_elements. tauto. }
    rewrite size_difference by done.
    rewrite size_list_to_set by done.
    apply subseteq_size in Hsub. rewrite size_list_to_set in Hsub by done. lia.
Qed.

Lemma undisturbed_broadcast_removes_the_failed_witness :
  let send_text := λ (c : Broadcaster.WebSocket) (_ : Broadcaster.message),
        if bool_decide (c = 2%nat) then Raised OtherException else Returned () in
  let active : gset Broadcaster.WebSocket := {[1%nat; 2%nat; 3%nat]} in
  let msg := {| Broadcaster.msg_type := "update";
                Broadcaster.msg_data := busy_snapshot |} in
  let r := Broadcaster.publish send_text (λ _, []) busy_snapshot active in
  let failed :=
    filter (λ c, ¬ Broadcaster.accepts send_text msg c) (Broadcaster.attempted r) in
  Broadcaster.ended r ≠ Some Broadcaster.SizeChanged
  ∧ NoDup (Broadcaster.attempted r)
  ∧ (∀ c, c ∈ Broadcaster.attempted r ↔ c ∈ active)
  ∧ (∀ c, c ∈ Broadcaster.active_after r
          ↔ c ∈ active ∧ Broadcaster.accepts send_text msg c)
  ∧ (∀ send_text' data' c,
       c ∈ Broadcaster.attempted
             (Broadcaster.publish send_text' (λ _, []) data'
                (Broadcaster.active_after r)) →
       c ∈ active ∧ Broadcaster.accepts send_text msg c)
  ∧ (Broadcaster.health (Broadcaster.active_after r) + length failed
     = Broadcaster.health active)%nat.
Proof.
  apply (undisturbed_broadcast_removes_the_failed
           (λ (c : Broadcaster.WebSocket) (_ : Broadcaster.message),
              if bool_decide (c = 2%nat) then Raised OtherException else Returned ())
           (λ _, []) busy_snapshot {[1%nat; 2%nat; 3%nat]}).
  intros c _. reflexivity.
Defined.

(** C8 (the code departs from the claim).  Two clients are subscribed; the
    delivery to client 2 raises, and while that delivery is awaited a third
    client connects and its endpoint adds its socket to the shared set.
    The next step of the iteration over the set raises [RuntimeError], which
    the loop of [monitor_network] absorbs without reaching
    [difference_update]: client 2, whose delivery failed, is still
    subscribed, the health answer counts three subscribers, and the next
    broadcast tries client 2 again. *)
Theorem joining_client_keeps_the_failed_subscriber :
  let send_text := λ (c : Broadcaster.WebSocket) (_ : Broadcaster.message),
        if bool_decide (c = 2%nat) then Raised OtherException else Returned () in
  let meanwhile := λ c : Broadcaster.WebSocket,
        if bool_decide (c = 2%nat) then [Broadcaster.Add 3%nat] else [] in
  let msg := {| Broadcaster.msg_type := "update";
                Broadcaster.msg_data := busy_snapshot |} in
  let r := Broadcaster.publish send_text meanwhile busy_snapshot {[1%nat; 2%nat]} in
  let r' := Broadcaster.publish send_text (λ _, []) busy_snapshot
              (Broadcaster.active_after r) in
  Broadcaster.ended r = Some Broadcaster.SizeChanged
  ∧ 2%nat ∈ Broadcaster.attempted r
  ∧ Broadcaster.accepts send_text msg 2%nat = false
  ∧ 2%nat ∈ Broadcaster.active_after r
  ∧ Broadcaster.health (Broadcaster.active_after r) = 3%nat
  ∧ 2%nat ∈ Broadcaster.attempted r'.
Proof.
  split_and!; try (vm_compute; reflexivity);
    apply (bool_decide_unpack _); vm_compute; exact I.
Qed.

(** The same broadcast when nobody connects meanwhile: client 2 is removed
    and two subscribers are left, of which one remains. *)
Example undisturbed_broadcast_drops_the_dead_subscriber :
  let send_text := λ (c : Broadcaster.WebSocket) (_ : Broadcaster.message),
        if bool_decide (c = 2%nat) then Raised OtherException else Returned () in
  let r := Broadcaster.publish send_text (λ _, []) busy_snapshot {[1%nat; 2%nat]} in
  Broadcaster.ended r = Some Broadcaster.Exhausted
  ∧ length (Broadcaster.attempted r) = 2%nat
  ∧ Broadcaster.active_after r = {[1%nat]}
  ∧ Broadcaster.health (Broadcaster.active_after r) = 1%nat.
Proof.
  split_and!; try (vm_compute; reflexivity);
    apply (bool_decide_unpack _); vm_compute; exact I.
Qed.

Lemma stats_rates_sum_the_process_table_witness :
  let self' := (update seconds busy_tick busy.1 busy.2).1.2 in
  let up := sum (bw_upload <$> values (process_bandwidth self')) in
  let down := sum (bw_download <$> values (process_bandwidth self')) in
  Stats.total_upload_speed (snap_stats busy_snapshot) = up
  ∧ Stats.total_download_speed (snap_stats busy_snapshot) = down
  ∧ (∀ k, Stats.total_upload_speed (get_stats seconds self' k).1 = up
          ∧ Stats.total_download_speed (get_stats seconds self' k).1 = down)
  ∧ (∀ io snap',
       (update seconds (with_counters busy_tick io) busy.1 busy.2).1.1
       = Returned snap' →
       Stats.total_upload_speed (snap_stats snap') = up
       ∧ Stats.total_download_speed (snap_stats snap') = down)
  ∧ Stats.total_bytes_sent (snap_stats busy_snapshot)
    = psutil.bytes_sent (net_io_counters busy_tick)
  ∧ Stats.total_bytes_received (snap_stats busy_snapshot)
    = psutil.bytes_recv (net_io_counters busy_tick).
Proof.
  apply (stats_rates_sum_the_process_table seconds busy_tick busy.1 busy.2
           busy_snapshot).
  vm_compute. reflexivity.
Defined.

(** On that tick the stats report 500 bytes per second of upload, the sum of
    the two processes, while the history point, computed from the aggregate
    counters, says 1000. *)
Example stats_and_history_differ :
  Stats.total_upload_speed (snap_stats busy_snapshot) = Z2Qc 500
  ∧ upload <$> get_bandwidth_history (update seconds busy_tick busy.1 busy.2).1.2
    = [Z2Qc 5; Z2Qc 1; Z2Qc 1000].
Proof.
  split; [by apply Qc_is_canon|].
  vm_compute. repeat (apply (f_equal2 cons); [by apply Qc_is_canon|]). done.
Qed.

(** * Further properties of the engine *)

(** ** Runs *)

Section runs.

Variable clock : nat → Qc.

(** A property of the monitor and of the number of clock readings that every
    tick preserves holds along every run. *)
Lemma run_preserves (P : nat → NetworkMonitor → Prop) :
  (∀ os self n, P n self → P (update clock os self n).2 (update clock os self n).1.2) →
  ∀ ticks self n, P n self → P (run clock ticks self n).2 (run clock ticks self n).1.
Proof.
  intros Hstep ticks. induction ticks as [|os ticks IH]; intros self n HP; simpl.
  - done.
  - rewrite bind_run. by apply IH, Hstep.
Qed.

Lemma update_reads_grow os self n : (S (S n) ≤ (update clock os self n).2)%nat.
Proof.
  rewrite update_reads. destruct (enumerate os) as [l|e]; [|lia].
  destruct (reconciled_lookup clock os self n l "") as [Hle _]. simpl in Hle. lia.
Qed.

(** The three fields of the per-process sampler after a tick are those the
    sampler step computes from the monitor as it was before the tick. *)
Lemma update_sampler_fields os self n :
  let self' := (update clock os self n).1.2 in
  let s := (_update_process_bandwidth clock os self (S n)).1 in
  process_bandwidth self' = process_bandwidth s
  ∧ previous_process_counters self' = previous_process_counters s
  ∧ previous_nettop_time self' = previous_nettop_time s.
Proof.
  simpl. rewrite update_state.
  assert (let x := sampled clock os self n in
          process_bandwidth x
          = process_bandwidth (_update_process_bandwidth clock os self (S n)).1
          ∧ previous_process_counters x
            = previous_process_counters (_update_process_bandwidth clock os self (S n)).1
          ∧ previous_nettop_time x
            = previous_nettop_time (_update_process_bandwidth clock os self (S n)).1)
    as H.
  { unfold sampled, _update_process_bandwidth, time_time. rewrite !bind_run. simpl.
    destruct (nettop os); [done|]. by case_bool_decide. }
  by destruct (enumerate os).
Qed.

(** What a sample that completes with return code 0 does. *)
Lemma _update_process_bandwidth_completed os self n rows :
  nettop os = NettopCompleted 0 rows →
  _update_process_bandwidth clock os self n
  = (set_process_sample self
       match previous_nettop_time self with
       | Some t =>
           if bool_decide (previous_process_counters self = ∅)
           then process_bandwidth self
           else if bool_decide (0 < clock n - t)
                then process_rates (clock n - t) (parse_counters rows)
                       (previous_process_counters self)
                else process_bandwidth self
       | None => process_bandwidth self
       end
       (parse_counters rows) (clock n), S n).
Proof.
  intros Hn. unfold _update_process_bandwidth, time_time.
  rewrite bind_run, Hn. simpl.
  done.
Qed.

Lemma Qclt_minus_pos (x y : Qc) : x < y ↔ 0 < y - x.
Proof.
  rewrite (Qcplus_lt_mono_r x y (- x)).
  by replace (x + - x) with 0 by ring.
Qed.

(** After any sampler step the table of rates is the old one or a table
    computed by [process_rates] over a positive time. *)
Lemma _update_process_bandwidth_table os self n :
  let self' := (_update_process_bandwidth clock os self n).1 in
  process_bandwidth self' = process_bandwidth self
  ∨ ∃ time_delta current,
      0 < time_delta
      ∧ process_bandwidth self'
        = process_rates time_delta current (previous_process_counters self).
Proof.
  simpl. destruct (nettop os) as [e|rc rows] eqn:Hn.
  - left. unfold _update_process_bandwidth, time_time. by rewrite bind_run, Hn.
  - destruct (decide (rc = 0%Z)) as [->|Hrc].
    + rewrite (_update_process_bandwidth_completed os self n rows Hn). simpl.
      destruct (previous_nettop_time self) as [t|]; [|by left].
      case_bool_decide; [by left|].
      case_bool_decide; [|by left]. right. eauto.
    + left. unfold _update_process_bandwidth, time_time.
      rewrite bind_run, Hn. simpl. by rewrite bool_decide_eq_true_2.
Qed.

Lemma sum_nonneg (l : list Qc) : Forall (λ x, 0 ≤ x) l → 0 ≤ sum l.
Proof.
  induction 1 as [|x l Hx _ IH]; [done|].
  rewrite sum_cons. by apply Qcplus_nonneg_nonneg.
Qed.

Lemma update_rates_not_negative os self n :
  rates_not_negative self → rates_not_negative (update clock os self n).1.2.
Proof.
  intros [Hpb Hent].
  assert (∀ pid r, process_bandwidth (update clock os self n).1.2 !! pid = Some r →
            0 ≤ bw_upload r ∧ 0 ≤ bw_download r) as Hpb'.
  { destruct (update_sampler_fields os self n) as (-> & _ & _).
    destruct (_update_process_bandwidth_table os self (S n))
      as [->|(dt & cur & Hdt & ->)]; [done|].
    intros pid r. by apply process_rates_nonneg. }
  split; [done|]. intros cid e He.
  destruct (enumerate os) as [l|x] eqn:Hen.
  - destruct (update_entry_rates clock os self n l cid e Hen He) as [-> ->].
    destruct (process_bandwidth (update clock os self n).1.2 !! Entry.pid e)
      as [r|] eqn:Hr; simpl; [by eapply Hpb'|done].
  - rewrite update_state, Hen in He.
    destruct (sampled_frame clock os self n) as (_ & _ & Hc & _).
    rewrite Hc in He. by eapply Hent.
Qed.

End runs.

(** X1.  Along every run of ticks from construction, no rate of the
    per-process table is negative, hence no upload or download speed of a
    tracked connection and neither of the two totals that the stats report:
    unlike the history, the figures derived from [nettop] are never below
    zero. *)
Theorem process_rates_are_never_negative clock N os0 n ticks :
  let m := (run clock ticks (__init__ clock N os0 n).1 (S (S n))).1 in
  (∀ pid r, process_bandwidth m !! pid = Some r →
     0 ≤ bw_upload r ∧ 0 ≤ bw_download r)
  ∧ (∀ e, e ∈ get_connections m →
       0 ≤ Entry.upload_speed e ∧ 0 ≤ Entry.download_speed e)
  ∧ (∀ k, 0 ≤ Stats.total_upload_speed (get_stats clock m k).1
          ∧ 0 ≤ Stats.total_download_speed (get_stats clock m k).1).
Proof.
  intros m.
  assert (rates_not_negative m) as [Hpb Hent].
  { apply (run_preserves clock (λ _, rates_not_negative)).
    - intros os self k. apply update_rates_not_negative.
    - split; intros ? ? Hx; simpl in Hx; by rewrite lookup_empty in Hx. }
  split_and!; [done| |].
  - intros e He. apply elem_of_values in He as [cid Hcid]. by eapply Hent.
  - intros k. unfold get_stats, time_time. rewrite bind_run. simpl.
    split; apply sum_nonneg, Forall_fmap, Forall_forall; intros r Hr;
      apply elem_of_values in Hr as [pid Hpid]; by apply Hpb in Hpid as [? ?].
Qed.

(** X2.  A sample that completes while a non-empty previous sample is
    stored and the clock has advanced replaces the table of rates as a
    whole: a pid has a rate exactly when it is in both samples, its upload
    and download being the clamped differences of [bytes_out] and
    [bytes_in] over the elapsed time; a pid missing from this sample, or
    new in it, has no rate.  The sample becomes the stored one. *)
Theorem rates_are_recomputed_from_both_samples clock os self n rows t :
  nettop os = NettopCompleted 0 rows →
  previous_process_counters self ≠ ∅ →
  previous_nettop_time self = Some t →
  t < clock n →
  let self' := (_update_process_bandwidth clock os self n).1 in
  (∀ pid,
     process_bandwidth self' !! pid
     = match parse_counters rows !! pid, previous_process_counters self !! pid with
       | Some current, Some previous =>
           Some {| bw_upload :=
                     max0 (bytes_out current - bytes_out previous) / (clock n - t);
                   bw_download :=
                     max0 (bytes_in current - bytes_in previous) / (clock n - t) |}
       | _, _ => None
       end)
  ∧ previous_process_counters self' = parse_counters rows
  ∧ previous_nettop_time self' = Some (clock n).
Proof.
  intros Hn Hprev Ht Hlt self'. subst self'.
  rewrite (_update_process_bandwidth_completed clock os self n rows Hn). simpl.
  pose proof (proj1 (Qclt_minus_pos _ _) Hlt) as Hpos.
  rewrite Ht, bool_decide_eq_false_2 by done.
  rewrite bool_decide_eq_true_2 by done.
  split; [|done]. intros pid. unfold process_rates. rewrite map_lookup_imap.
  destruct (parse_counters rows !! pid) as [c|]; simpl; [|done].
  by destruct (previous_process_counters self !! pid).
Qed.

Lemma rates_are_recomputed_from_both_samples_witness :
  let rows := [(4242%Z, counters 400 2500); (77%Z, counters 50 500)] in
  let self' := (_update_process_bandwidth seconds busy_tick busy.1 11%nat).1 in
  (∀ pid,
     process_bandwidth self' !! pid
     = match parse_counters rows !! pid, previous_process_counters busy.1 !! pid with
       | Some current, Some previous =>
           Some {| bw_upload :=
                     max0 (bytes_out current - bytes_out previous)
                     / (seconds 11%nat - seconds 7%nat);
                   bw_download :=
                     max0 (bytes_in current - bytes_in previous)
                     / (seconds 11%nat - seconds 7%nat) |}
       | _, _ => None
       end)
  ∧ previous_process_counters self' = parse_counters rows
  ∧ previous_nettop_time self' = Some (seconds 11%nat).
Proof.
  apply (rates_are_recomputed_from_both_samples seconds busy_tick busy.1 11%nat
           [(4242%Z, counters 400 2500); (77%Z, counters 50 500)] (seconds 7%nat)).
  - reflexivity.
  - apply (bool_decide_unpack _). vm_compute. exact I.
  - vm_compute. reflexivity.
  - reflexivity.
Defined.

(** X3.  A sample that completes while no previous sample is stored (the
    first one, or the one after a sample without rows) computes no rate: the
    table is left as it is and the sample only becomes the baseline of the
    next one. *)
Theorem first_sample_only_sets_the_baseline clock os self n rows :
  nettop os = NettopCompleted 0 rows →
  previous_process_counters self = ∅ ∨ previous_nettop_time self = None →
  let self' := (_update_process_bandwidth clock os self n).1 in
  process_bandwidth self' = process_bandwidth self
  ∧ previous_process_counters self' = parse_counters rows
  ∧ previous_nettop_time self' = Some (clock n).
Proof.
  intros Hn Hprev self'. subst self'.
  rewrite (_update_process_bandwidth_completed clock os self n rows Hn). simpl.
  split; [|done].
  destruct (previous_nettop_time self) as [t|]; [|done].
  destruct Hprev as [Hprev|?]; [|done].
  by rewrite bool_decide_eq_true_2.
Qed.

Lemma first_sample_only_sets_the_baseline_witness :
  let os := host 5 5 [(4242%Z, counters 100 200)] [] in
  let self' := (_update_process_bandwidth seconds os fresh.1 3%nat).1 in
  process_bandwidth self' = process_bandwidth fresh.1
  ∧ previous_process_counters self' = parse_counters [(4242%Z, counters 100 200)]
  ∧ previous_nettop_time self' = Some (seconds 3%nat).
Proof.
  apply (first_sample_only_sets_the_baseline seconds
           (host 5 5 [(4242%Z, counters 100 200)] []) fresh.1 3%nat
           [(4242%Z, counters 100 200)]).
  - reflexivity.
  - left. reflexivity.
Defined.

(** X4.  A sample that completes with return code 0 but without any row is
    not treated as a failure: with a baseline stored and the clock advanced,
    the tick empties the table of rates, and the next completed sample
    cannot refill it, because the stored baseline is now empty; the stats
    of both ticks report zero upload and download. *)
Theorem sample_without_rows_wipes_the_rates clock osA osB self n rowsB t :
  nettop osA = NettopCompleted 0 [] →
  nettop osB = NettopCompleted 0 rowsB →
  previous_process_counters self ≠ ∅ →
  previous_nettop_time self = Some t →
  t < clock (S n) →
  let a := update clock osA self n in
  let b := update clock osB a.1.2 a.2 in
  process_bandwidth a.1.2 = ∅
  ∧ process_bandwidth b.1.2 = ∅
  ∧ previous_process_counters b.1.2 = parse_counters rowsB
  ∧ (∀ k, Stats.total_upload_speed (get_stats clock b.1.2 k).1 = 0
          ∧ Stats.total_download_speed (get_stats clock b.1.2 k).1 = 0).
Proof.
  intros HA HB Hprev Ht Hlt a b. subst a b.
  destruct (update_sampler_fields clock osA self n) as (Hpb & Hpc & Hpt).
  rewrite (_update_process_bandwidth_completed clock osA self (S n) [] HA)
    in Hpb, Hpc, Hpt.
  simpl in Hpb, Hpc, Hpt.
  pose proof (proj1 (Qclt_minus_pos _ _) Hlt) as Hpos.
  rewrite Ht, bool_decide_eq_false_2 in Hpb by done.
  rewrite bool_decide_eq_true_2 in Hpb by done.
  assert (process_bandwidth (update clock osA self n).1.2 = ∅) as HpbA.
  { rewrite Hpb. unfold process_rates, parse_counters. simpl.
    apply map_eq. intros pid. by rewrite map_lookup_imap, !lookup_empty. }
  set (sa := (update clock osA self n).1.2) in *.
  set (na := (update clock osA self n).2) in *.
  destruct (update_sampler_fields clock osB sa na) as (HpbB & HpcB & _).
  rewrite (_update_process_bandwidth_completed clock osB sa (S na) rowsB HB)
    in HpbB, HpcB.
  simpl in HpbB, HpcB. rewrite Hpt, Hpc in HpbB. simpl in HpbB.
  rewrite bool_decide_eq_true_2 in HpbB by done.
  rewrite HpbA in HpbB.
  split_and!; [done..|].
  intros k. unfold get_stats, time_time. rewrite bind_run. simpl.
  by rewrite HpbB, !sum_values_empty.
Qed.

Lemma sample_without_rows_wipes_the_rates_witness :
  let osA := host 4010 10 [] [web] in
  let rowsB := [(4242%Z, counters 900 5000)] in
  let osB := host 4020 20 rowsB [web] in
  let a := update seconds osA busy.1 busy.2 in
  let b := update seconds osB a.1.2 a.2 in
  process_bandwidth a.1.2 = ∅
  ∧ process_bandwidth b.1.2 = ∅
  ∧ previous_process_counters b.1.2 = parse_counters rowsB
  ∧ (∀ k, Stats.total_upload_speed (get_stats seconds b.1.2 k).1 = 0
          ∧ Stats.total_download_speed (get_stats seconds b.1.2 k).1 = 0).
Proof.
  apply (sample_without_rows_wipes_the_rates seconds
           (host 4010 10 [] [web]) (host 4020 20 [(4242%Z, counters 900 5000)] [web])
           busy.1 busy.2 [(4242%Z, counters 900 5000)] (seconds 7%nat)).
  - reflexivity.
  - reflexivity.
  - apply (bool_decide_unpack _). vm_compute. exact I.
  - vm_compute. reflexivity.
  - reflexivity.
Defined.

(** ** The aggregate sampler *)

Section sampling.

Variable clock : nat → Qc.

(** The fields of the aggregate sampler after a tick, whatever the outcome
    of the tick. *)
Lemma update_aggregate_fields os self n :
  let self' := (update clock os self n).1.2 in
  history_length self' = history_length self
  ∧ bandwidth_history self'
    = match appended_point clock os self n with
      | Some p => deque_append (history_length self) (bandwidth_history self) p
      | None => bandwidth_history self
      end
  ∧ start_time self' = start_time self
  ∧ previous_io_counters self' = Some (net_io_counters os)
  ∧ previous_time self' = Some (clock n)
  ∧ total_bytes_sent self' = psutil.bytes_sent (net_io_counters os)
  ∧ total_bytes_received self' = psutil.bytes_recv (net_io_counters os).
Proof.
  simpl. rewrite <-_update_io_counters_history.
  destruct (sampled_frame clock os self n) as (H1 & H2 & _ & H4 & H5 & H6).
  destruct (_update_process_bandwidth_frame clock os
              (_update_io_counters clock os self n).1 (S n))
    as (_ & _ & _ & _ & _ & _ & H7 & H8).
  fold (sampled clock os self n) in H7, H8. simpl in H7, H8.
  rewrite update_state. by destruct (enumerate os).
Qed.

Lemma Z2Qc_nonneg (z : Z) : (0 ≤ z)%Z → 0 ≤ Z2Qc z.
Proof.
  intros Hz. unfold Z2Qc, Qcle. simpl. rewrite (Qred_correct (inject_Z z)).
  unfold Qle. simpl. lia.
Qed.

Lemma Qcdiv_nonneg (x y : Qc) : 0 ≤ x → 0 < y → 0 ≤ x / y.
Proof.
  intros Hx Hy. unfold Qcdiv. apply Qcmult_nonneg_nonneg; [done|].
  by apply Qclt_le_weak, Qcinv_pos.
Qed.

Lemma elem_of_deque_append {A} (maxlen : nat) (d : list A) x y :
  y ∈ deque_append maxlen d x → y ∈ d ∨ y = x.
Proof.
  unfold deque_append.
  assert (y ∈ d ++ [x] → y ∈ d ∨ y = x) as Happ.
  { rewrite elem_of_app, list_elem_of_singleton. tauto. }
  destruct (maxlen <? length (d ++ [x]))%nat; [|done].
  intros Hy. apply Happ. rewrite tail_drop in Hy.
  by apply (subseteq_drop 1) in Hy.
Qed.

Lemma increasing_tail l : increasing l → increasing (tail l).
Proof.
  intros Hl i j p q Hij Hp Hq. rewrite lookup_tail in Hp, Hq.
  apply (Hl (S i) (S j)); [lia|done..].
Qed.

Lemma increasing_snoc l p :
  increasing l → (∀ q, q ∈ l → timestamp q < timestamp p) → increasing (l ++ [p]).
Proof.
  intros Hl Hp i j a b Hij Ha Hb.
  apply lookup_app_Some in Ha as [Ha|[Hlen Ha]].
  - apply lookup_app_Some in Hb as [Hb|[_ Hb]].
    + by apply (Hl i j).
    + apply list_lookup_singleton_Some in Hb as [_ <-].
      apply Hp, list_elem_of_lookup. eauto.
  - apply list_lookup_singleton_Some in Ha as [Hi _].
    apply lookup_app_Some in Hb as [Hb|[_ Hb]].
    + apply lookup_lt_Some in Hb. lia.
    + apply list_lookup_singleton_Some in Hb as [Hj _]. lia.
Qed.

Lemma increasing_deque_append N l p :
  increasing l → (∀ q, q ∈ l → timestamp q < timestamp p) →
  increasing (deque_append N l p).
Proof.
  intros Hl Hp. unfold deque_append.
  destruct (N <? length (l ++ [p]))%nat.
  - by apply increasing_tail, increasing_snoc.
  - by apply increasing_snoc.
Qed.

Lemma update_history_dated os self n :
  (∀ i j, (i ≤ j)%nat → clock i ≤ clock j) →
  history_dated clock n self →
  history_dated clock (update clock os self n).2 (update clock os self n).1.2.
Proof.
  intros Hmono (i & Hi & Ht & Hle & Hinc).
  pose proof (update_reads_grow clock os self n) as Hreads.
  destruct (update_aggregate_fields os self n) as (_ & Hh & _ & _ & Hpt & _).
  exists n. split; [lia|]. split; [done|]. rewrite Hh.
  assert (clock i ≤ clock n) as Hin by (apply Hmono; lia).
  unfold appended_point. rewrite Ht.
  destruct (previous_io_counters self) as [prev|].
  - case_bool_decide as Hpos.
    + apply Qclt_minus_pos in Hpos.
      assert (∀ q, q ∈ bandwidth_history self → timestamp q < clock n) as Hlt.
      { intros q Hq. eapply Qcle_lt_trans; [by apply Hle|done]. }
      split.
      * intros p Hp. apply elem_of_deque_append in Hp as [Hp| ->]; [|done].
        by apply Qclt_le_weak, Hlt.
      * by apply increasing_deque_append.
    + split; [|done]. intros p Hp. eapply Qcle_trans; [by apply Hle|done].
  - split; [|done]. intros p Hp. eapply Qcle_trans; [by apply Hle|done].
Qed.

End sampling.

(** X5.  When the clock never goes backwards, the timestamps of the history
    grow strictly from the oldest point to the newest along every run of
    ticks from construction, and no point is later than the last sample. *)
Theorem history_timestamps_increase clock N os0 n ticks :
  (∀ i j, (i ≤ j)%nat → clock i ≤ clock j) →
  let m := (run clock ticks (__init__ clock N os0 n).1 (S (S n))).1 in
  increasing (get_bandwidth_history m)
  ∧ ∃ t, previous_time m = Some t
       ∧ ∀ p, p ∈ get_bandwidth_history m → timestamp p ≤ t.
Proof.
  intros Hmono m.
  assert (history_dated clock (run clock ticks (__init__ clock N os0 n).1 (S (S n))).2 m)
    as (i & _ & Ht & Hle & Hinc).
  { apply (run_preserves clock (history_dated clock)).
    - intros os self k. by apply update_history_dated.
    - exists (S n). split; [lia|]. split; [done|]. split.
      + intros p Hp. simpl in Hp. by apply elem_of_nil in Hp.
      + intros ? ? ? ? _ Hp. simpl in Hp. by rewrite lookup_nil in Hp. }
  split; [done|]. eauto.
Qed.

Lemma history_timestamps_increase_witness :
  let ticks := [quiet_host 10 10; quiet_host 30 30; quiet_host 60 60] in
  let m := (run seconds ticks (__init__ seconds 2%nat (quiet_host 0 0) 0%nat).1 2%nat).1 in
  increasing (get_bandwidth_history m)
  ∧ ∃ t, previous_time m = Some t
       ∧ ∀ p, p ∈ get_bandwidth_history m → timestamp p ≤ t.
Proof.
  apply (history_timestamps_increase seconds 2%nat (quiet_host 0 0) 0%nat
           [quiet_host 10 10; quiet_host 30 30; quiet_host 60 60]).
  apply seconds_mono.
Defined.

(** X6.  A tick whose clock reading is not later than the one of the
    previous sample appends no point, so no rate is ever computed over an
    elapsed time of zero or less; the tick still replaces the baseline, so
    the bytes counted since the previous sample enter no history point. *)
Theorem stalled_clock_appends_no_point clock os self n t :
  previous_time self = Some t →
  clock n ≤ t →
  let self' := (update clock os self n).1.2 in
  bandwidth_history self' = bandwidth_history self
  ∧ previous_io_counters self' = Some (net_io_counters os)
  ∧ previous_time self' = Some (clock n)
  ∧ total_bytes_sent self' = psutil.bytes_sent (net_io_counters os)
  ∧ total_bytes_received self' = psutil.bytes_recv (net_io_counters os).
Proof.
  intros Ht Hle self'. subst self'.
  destruct (update_aggregate_fields clock os self n)
    as (_ & Hh & _ & Hio & Hpt & Hs & Hr).
  split_and!; [|done..]. rewrite Hh. unfold appended_point. rewrite Ht.
  destruct (previous_io_counters self); [|done].
  rewrite bool_decide_eq_false_2; [done|].
  intros Hpos. apply Qclt_minus_pos in Hpos. by apply Qcle_not_lt in Hle.
Qed.

Lemma stalled_clock_appends_no_point_witness :
  let frozen := λ _ : nat, Z2Qc 7 in
  let self := (__init__ frozen 60%nat (quiet_host 10 10) 0%nat).1 in
  let os := quiet_host 500 900 in
  let self' := (update frozen os self 2%nat).1.2 in
  bandwidth_history self' = bandwidth_history self
  ∧ previous_io_counters self' = Some (net_io_counters os)
  ∧ previous_time self' = Some (frozen 2%nat)
  ∧ total_bytes_sent self' = psutil.bytes_sent (net_io_counters os)
  ∧ total_bytes_received self' = psutil.bytes_recv (net_io_counters os).
Proof.
  apply (stalled_clock_appends_no_point (λ _ : nat, Z2Qc 7) (quiet_host 500 900)
           (__init__ (λ _ : nat, Z2Qc 7) 60%nat (quiet_host 10 10) 0%nat).1
           2%nat (Z2Qc 7)).
  - reflexivity.
  - done.
Defined.

(** X7.  When neither aggregate counter is below the previous sample, the
    tick leaves the history as it is or appends one point, stamped with the
    clock reading of the tick, whose upload and download are not negative. *)
Theorem monotone_counters_give_nonnegative_rates clock os self n previous :
  previous_io_counters self = Some previous →
  (psutil.bytes_sent previous ≤ psutil.bytes_sent (net_io_counters os))%Z →
  (psutil.bytes_recv previous ≤ psutil.bytes_recv (net_io_counters os))%Z →
  let self' := (update clock os self n).1.2 in
  bandwidth_history self' = bandwidth_history self
  ∨ ∃ p, bandwidth_history self'
         = deque_append (history_length self) (bandwidth_history self) p
       ∧ timestamp p = clock n ∧ 0 ≤ upload p ∧ 0 ≤ download p.
Proof.
  intros Hprev Hs Hr self'. subst self'.
  destruct (update_aggregate_fields clock os self n) as (_ & -> & _).
  unfold appended_point. rewrite Hprev.
  destruct (previous_time self) as [t|]; [|by left].
  case_bool_decide as Hpos; [|by left].
  right. eexists. split; [done|]. simpl.
  split_and!; [done|..]; apply Qcdiv_nonneg; try done; apply Z2Qc_nonneg; lia.
Qed.

Lemma monotone_counters_give_nonnegative_rates_witness :
  let self' := (update seconds busy_tick busy.1 busy.2).1.2 in
  bandwidth_history self' = bandwidth_history busy.1
  ∨ ∃ p, bandwidth_history self'
         = deque_append (history_length busy.1) (bandwidth_history busy.1) p
       ∧ timestamp p = seconds busy.2 ∧ 0 ≤ upload p ∧ 0 ≤ download p.
Proof.
  apply (monotone_counters_give_nonnegative_rates seconds busy_tick busy.1 busy.2
           {| psutil.bytes_sent := 9; psutil.bytes_recv := 9 |}).
  - reflexivity.
  - vm_compute. discriminate.
  - vm_compute. discriminate.
Defined.

(** ** The entries of the table *)

Section entries.

Variable clock : nat → Qc.

Lemma endpoint_mentions_colon a : mentions ":" (endpoint a) = true.
Proof.
  unfold endpoint. rewrite mentions_app.
  replace (":" +:+ pretty (psutil.port a)) with (String ":" (pretty (psutil.port a)))
    by done.
  simpl. by rewrite orb_true_r.
Qed.

Lemma tracked_entry_well_formed os self conn now :
  has_remote conn →
  well_formed (_get_connection_id conn) (tracked_entry os self conn now).
Proof.
  intros Hr. unfold well_formed, tracked_entry. simpl.
  split_and!; [done..| |].
  - unfold has_remote in Hr. apply bool_decide_unpack in Hr as [a Ha].
    rewrite Ha. simpl. intros Heq.
    pose proof (endpoint_mentions_colon a) as Hc. by rewrite Heq in Hc.
  - destruct (psutil.type conn); [by left|by right].
Qed.

Lemma update_well_formed os self n :
  (∀ cid e, connections self !! cid = Some e → well_formed cid e) →
  ∀ cid e, connections (update clock os self n).1.2 !! cid = Some e →
           well_formed cid e.
Proof.
  intros Hwf cid e. rewrite update_state.
  destruct (enumerate os) as [l|x]; simpl.
  - intros He.
    destruct (reconciled_lookup clock os self n l cid) as [_ [[_ Hnone]|H]];
      [congruence|].
    destruct H as (conn & i & _ & Hr & <- & _ & Hl).
    rewrite Hl in He. injection He as <-. by apply tracked_entry_well_formed.
  - destruct (sampled_frame clock os self n) as (_ & _ & -> & _). apply Hwf.
Qed.

Lemma size_list_to_set_le (l : list string) :
  (size (list_to_set l : gset string) ≤ length l)%nat.
Proof.
  induction l as [|x l IH].
  - rewrite list_to_set_nil, size_empty. simpl. lia.
  - rewrite list_to_set_cons, size_union_alt, size_singleton. simpl.
    pose proof (subseteq_size (list_to_set l ∖ {[x]}) (list_to_set l : gset string))
      as Hsub.
    assert (list_to_set l ∖ {[x]} ⊆ (list_to_set l : gset string)) as H
      by (intros y Hy; by apply elem_of_difference in Hy as [? _]).
    specialize (Hsub H). lia.
Qed.

Lemma length_values {K V} `{Countable K} (m : gmap K V) : length (values m) = size m.
Proof. unfold values. by rewrite length_fmap, length_map_to_list. Qed.

End entries.

(** X8.  Along every run of ticks from construction, every connection that
    [get_connections] returns is stored under its own id, so no two of them
    share an id; it has a remote address (never the placeholder of a
    missing endpoint), its protocol is one of the two socket kinds, and its
    per-connection byte counters are 0: they are never filled in. *)
Theorem entries_are_well_formed clock N os0 n ticks :
  let m := (run clock ticks (__init__ clock N os0 n).1 (S (S n))).1 in
  (∀ e, e ∈ get_connections m →
     connections m !! Entry.id e = Some e
     ∧ Entry.bytes_sent e = 0%Z ∧ Entry.bytes_received e = 0%Z
     ∧ Entry.remote_addr e ≠ "N/A"
     ∧ (Entry.protocol e = "SOCK_STREAM" ∨ Entry.protocol e = "SOCK_DGRAM"))
  ∧ NoDup (Entry.id <$> get_connections m).
Proof.
  intros m.
  assert (∀ cid e, connections m !! cid = Some e → well_formed cid e) as Hwf.
  { apply (run_preserves clock
             (λ _ s, ∀ cid e, connections s !! cid = Some e → well_formed cid e)).
    - intros os self k. apply update_well_formed.
    - intros ? ? Hx. simpl in Hx. by rewrite lookup_empty in Hx. }
  split.
  - intros e He. apply elem_of_values in He as [cid Hcid].
    destruct (Hwf cid e Hcid) as (Hid & ? & ? & ? & ?). by rewrite Hid.
  - unfold get_connections, values. rewrite <-list_fmap_compose.
    rewrite (list_fmap_ext (Entry.id ∘ snd) fst (map_to_list (connections m))).
    + apply NoDup_fst_map_to_list.
    + intros i [cid e] Hi. simpl.
      apply list_elem_of_lookup_2, elem_of_map_to_list in Hi.
      by destruct (Hwf cid e Hi) as [? _].
Qed.

(** X9.  When a tick completes with enumeration [l], the connection count of
    its stats is the length of the connection list of the same snapshot and
    the number of distinct identities among the sockets of [l] that have a
    remote endpoint: sockets enumerated with one identity count once. *)
Theorem connection_count_is_the_number_of_identities clock os self n l :
  enumerate os = Returned l →
  ∃ snap, (update clock os self n).1.1 = Returned snap
    ∧ snap_connections snap = get_connections (update clock os self n).1.2
    ∧ Stats.active_connections (snap_stats snap) = length (snap_connections snap)
    ∧ Stats.active_connections (snap_stats snap)
      = size (list_to_set (tracked_ids l) : gset string)
    ∧ (Stats.active_connections (snap_stats snap) ≤ length (filter has_remote l))%nat.
Proof.
  intros Hen. rewrite update_outcome, Hen. eexists. split; [done|]. simpl.
  set (self' := (update clock os self n).1.2).
  assert (dom (connections self') = list_to_set (tracked_ids l)) as Hdom.
  { apply set_eq. intros cid. subst self'.
    rewrite elem_of_dom, elem_of_list_to_set, (update_connections clock os self n l Hen).
    apply reconciled_dom. }
  split_and!; [done| | |].
  - unfold get_connections. by rewrite length_values.
  - by rewrite <-Hdom, size_dom.
  - rewrite <-size_dom, Hdom.
    etrans; [apply size_list_to_set_le|]. unfold tracked_ids. by rewrite length_fmap.
Qed.

Lemma connection_count_is_the_number_of_identities_witness :
  let l := [web; listener; orphan; web] in
  let os := host 10 10 [] l in
  ∃ snap, (update seconds os fresh.1 fresh.2).1.1 = Returned snap
    ∧ snap_connections snap = get_connections (update seconds os fresh.1 fresh.2).1.2
    ∧ Stats.active_connections (snap_stats snap) = length (snap_connections snap)
    ∧ Stats.active_connections (snap_stats snap)
      = size (list_to_set (tracked_ids l) : gset string)
    ∧ (Stats.active_connections (snap_stats snap) ≤ length (filter has_remote l))%nat.
Proof.
  apply (connection_count_is_the_number_of_identities seconds
           (host 10 10 [] [web; listener; orphan; web]) fresh.1 fresh.2
           [web; listener; orphan; web]).
  reflexivity.
Defined.

(** Four sockets are enumerated, one is listening and one comes twice: the
    stats count two connections. *)
Example duplicates_count_once :
  match (update seconds (host 10 10 [] [web; listener; orphan; web])
           fresh.1 fresh.2).1.1 with
  | Returned snap => Stats.active_connections (snap_stats snap) = 2%nat
  | Raised _ => False
  end.
Proof. vm_compute. reflexivity. Qed.

(** ** Identities and addresses *)

Section texts.

(** A text is split in one way only at the last occurrence of a
    separator. *)
Lemma last_field_split c (s : string) : ∀ s' p p',
  mentions c p = false → mentions c p' = false →
  s +:+ String c p = s' +:+ String c p' → s = s' ∧ p = p'.
Proof.
  induction s as [|a s IH]; intros [|a' s'] p p' Hp Hp' Heq;
    rewrite ?append_cons in Heq; change ("" +:+ ?x) with x in Heq.
  - by injection Heq.
  - injection Heq as <- ->. rewrite mentions_app in Hp. simpl in Hp.
    rewrite bool_decide_eq_true_2 in Hp by done.
    by rewrite orb_true_r in Hp.
  - injection Heq as -> <-. rewrite mentions_app in Hp'. simpl in Hp'.
    rewrite bool_decide_eq_true_2 in Hp' by done.
    by rewrite orb_true_r in Hp'.
  - injection Heq as -> Heq. destruct (IH s' p p' Hp Hp' Heq) as [-> ->]. done.
Qed.

Lemma pretty_N_char_not_colon x : pretty_N_char x ≠ ":"%char.
Proof. unfold pretty_N_char. by repeat case_match. Qed.

Lemma endpoint_inj a b : endpoint a = endpoint b → a = b.
Proof.
  unfold endpoint. intros Heq.
  apply (last_field_split ":") in Heq as [Hip Hport];
    try (apply pretty_Z_mentions; [apply pretty_N_char_not_colon|done]).
  apply (inj pretty) in Hport. destruct a, b. simpl in *. by subst.
Qed.

(** The text of an optional endpoint determines it, whatever colon-free
    placeholder stands for the missing one. *)
Lemma from_option_endpoint_inj d a b :
  mentions ":" d = false →
  from_option endpoint d a = from_option endpoint d b → a = b.
Proof.
  intros Hd. destruct a as [a|], b as [b|]; simpl; intros Heq.
  - f_equal. by apply endpoint_inj.
  - pose proof (endpoint_mentions_colon a) as H. by rewrite Heq, Hd in H.
  - pose proof (endpoint_mentions_colon b) as H. by rewrite <-Heq, Hd in H.
  - done.
Qed.

Lemma plain_endpoint_no_underscore d a :
  mentions "_" d = false → plain_endpoint a →
  mentions "_" (from_option endpoint d a) = false.
Proof.
  intros Hd Ha. destruct a as [a|]; simpl; [|done].
  unfold endpoint. rewrite !mentions_app.
  simpl in Ha. apply negb_prop_elim, Is_true_false in Ha. rewrite Ha. simpl.
  apply pretty_Z_mentions; [apply pretty_N_char_not_underscore|done].
Qed.

Lemma name_inj k k' : psutil.name k = psutil.name k' → k = k'.
Proof. by destruct k, k'. Qed.

End texts.

(** X10.  For sockets whose IP texts hold no underscore, the identity
    string determines the socket kind, both endpoints and the owning pid:
    two sockets that differ in one of them never share an entry of the
    table.  (The state of the socket is not part of the identity.) *)
Theorem identity_determines_the_socket c c' :
  plain_ips c → plain_ips c' →
  _get_connection_id c = _get_connection_id c' →
  psutil.type c = psutil.type c'
  ∧ psutil.laddr c = psutil.laddr c'
  ∧ psutil.raddr c = psutil.raddr c'
  ∧ psutil.pid c = psutil.pid c'.
Proof.
  unfold plain_ips. intros [Hl Hr]%andb_prop_elim [Hl' Hr']%andb_prop_elim.
  assert (∀ x, _get_connection_id x
               = ((psutil.name (psutil.type x)
                   +:+ String "_" (from_option endpoint "unknown" (psutil.laddr x)))
                  +:+ String "_" (from_option endpoint "unknown" (psutil.raddr x)))
                 +:+ String "_" (str_pid (psutil.pid x))) as Hshape.
  { intros x. unfold _get_connection_id. by rewrite !append_assoc. }
  rewrite !Hshape. intros Heq.
  apply (last_field_split "_") in Heq as [Heq Hpid];
    try apply str_pid_no_underscore.
  apply (last_field_split "_") in Heq as [Heq Hraddr];
    try by apply plain_endpoint_no_underscore.
  apply (last_field_split "_") in Heq as [Hname Hladdr];
    try by apply plain_endpoint_no_underscore.
  split_and!.
  - by apply name_inj.
  - by apply (from_option_endpoint_inj "unknown").
  - by apply (from_option_endpoint_inj "unknown").
  - by apply str_pid_inj.
Qed.

Lemma identity_determines_the_socket_witness :
  let closing :=
    {| psutil.laddr := psutil.laddr web; psutil.raddr := psutil.raddr web;
       psutil.type := psutil.type web; psutil.status := "CLOSE_WAIT";
       psutil.pid := psutil.pid web |} in
  psutil.type web = psutil.type closing
  ∧ psutil.laddr web = psutil.laddr closing
  ∧ psutil.raddr web = psutil.raddr closing
  ∧ psutil.pid web = psutil.pid closing.
Proof.
  apply (identity_determines_the_socket web
           {| psutil.laddr := psutil.laddr web; psutil.raddr := psutil.raddr web;
              psutil.type := psutil.type web; psutil.status := "CLOSE_WAIT";
              psutil.pid := psutil.pid web |}).
  - vm_compute. exact I.
  - vm_compute. exact I.
  - reflexivity.
Defined.

(** X11.  The address shown for an endpoint determines the endpoint: two
    different endpoints are never displayed alike, and a present endpoint
    is never displayed as ["N/A"], the placeholder of a missing one. *)
Theorem _format_addr_determines_the_endpoint a b :
  _format_addr a = _format_addr b → a = b.
Proof. by apply (from_option_endpoint_inj "N/A"). Qed.

Lemma _format_addr_determines_the_endpoint_witness :
  psutil.raddr web = Some {| psutil.ip := "93.184.216.34"; psutil.port := 443 |}.
Proof.
  apply (_format_addr_determines_the_endpoint (psutil.raddr web)
           (Some {| psutil.ip := "93.184.216.34"; psutil.port := 443 |})).
  reflexivity.
Defined.

(** ** Lifetimes *)

Section lifetimes.

Variable clock : nat → Qc.

Lemma update_timed n0 os self n :
  (n0 ≤ n)%nat →
  timed clock n0 n (connections self) →
  timed clock n0 (update clock os self n).2 (connections (update clock os self n).1.2).
Proof.
  intros Hn0 Ht cid e. rewrite update_state, update_reads.
  destruct (enumerate os) as [l|x]; simpl.
  - intros He.
    destruct (reconciled_lookup clock os self n l cid) as [_ [[_ Hnone]|H]];
      [congruence|].
    destruct H as (conn & i & _ & _ & Hid & Hi & Hl).
    rewrite Hl in He. injection He as <-.
    unfold tracked_entry. simpl. rewrite Hid.
    destruct (sampled_frame clock os self n) as (_ & _ & -> & _).
    destruct (connections self !! cid) as [old|] eqn:Hold.
    + destruct (Ht cid old Hold) as (j & i' & Hj & Hi' & Hs & _).
      exists j, i. split_and!; [lia..|done|by rewrite Hs].
    + exists i, i. split_and!; [lia..|done|ring].
  - destruct (sampled_frame clock os self n) as (_ & _ & -> & _).
    intros He. destruct (Ht cid e He) as (j & i & ? & ? & ? & ?).
    exists j, i. split_and!; [lia..|done|done].
Qed.

Lemma run_reads_grow ticks : ∀ self n, (n ≤ (run clock ticks self n).2)%nat.
Proof.
  induction ticks as [|os ticks IH]; intros self n; simpl; [done|].
  rewrite bind_run. etrans; [|apply IH].
  pose proof (update_reads_grow clock os self n). lia.
Qed.

Lemma run_timed n0 ticks : ∀ self n,
  (n0 ≤ n)%nat →
  timed clock n0 n (connections self) →
  timed clock n0 (run clock ticks self n).2 (connections (run clock ticks self n).1).
Proof.
  induction ticks as [|os ticks IH]; intros self n Hn Ht; simpl; [done|].
  rewrite bind_run. apply IH.
  - pose proof (update_reads_grow clock os self n). lia.
  - by apply update_timed.
Qed.

Lemma run_start_time ticks : ∀ self n,
  start_time (run clock ticks self n).1 = start_time self.
Proof.
  induction ticks as [|os ticks IH]; intros self n; simpl; [done|].
  rewrite bind_run, IH.
  by destruct (update_aggregate_fields clock os self n) as (_ & _ & -> & _).
Qed.

End lifetimes.

(** X12.  When the clock never goes backwards, along every run of ticks
    from construction no connection has a negative duration, and none has
    started before the monitor itself: its start time is not earlier than
    the start time from which the uptime is counted. *)
Theorem durations_are_never_negative clock N os0 n ticks :
  (∀ i j, (i ≤ j)%nat → clock i ≤ clock j) →
  let m := (run clock ticks (__init__ clock N os0 n).1 (S (S n))).1 in
  ∀ e, e ∈ get_connections m →
    0 ≤ Entry.duration e ∧ start_time m ≤ Entry.start_time e.
Proof.
  intros Hmono m e He. apply elem_of_values in He as [cid Hcid].
  assert (timed clock n (run clock ticks (__init__ clock N os0 n).1 (S (S n))).2
            (connections m)) as Ht.
  { apply run_timed; [lia|]. intros ? ? Hx. simpl in Hx. by rewrite lookup_empty in Hx. }
  destruct (Ht cid e Hcid) as (j & i & Hj & _ & -> & ->).
  unfold m. rewrite run_start_time. simpl.
  split; [|apply Hmono; lia].
  apply (Qcplus_le_mono_r _ _ (clock j)).
  replace (clock i - clock j + clock j) with (clock i) by ring.
  rewrite Qcplus_0_l. apply Hmono. lia.
Qed.

Lemma durations_are_never_negative_witness :
  0 ≤ Entry.duration busy_web ∧ start_time busy.1 ≤ Entry.start_time busy_web.
Proof.
  apply (durations_are_never_negative seconds 60%nat (quiet_host 0 0) 0%nat
           [host 5 5 [(4242%Z, counters 100 200); (77%Z, counters 0 0)] [web];
            host 9 9 [(4242%Z, counters 400 900); (77%Z, counters 50 100)] [web]]
           seconds_mono busy_web).
  apply elem_of_values. exists (_get_connection_id web). vm_compute. reflexivity.
Defined.

(** X13.  A tick on which the enumeration is refused empties the table, so
    the lifetimes are lost: every connection reported by the next tick is
    new, with duration 0 and a clock reading of that tick as start time,
    however long the socket has been open. *)
Theorem refused_tick_restarts_the_durations clock osA osB self n x l :
  net_connections osA = ConnectionsRaises x →
  x = AccessDenied ∨ x = PermissionError →
  enumerate osB = Returned l →
  let a := update clock osA self n in
  let b := update clock osB a.1.2 a.2 in
  ∀ e, e ∈ get_connections b.1.2 →
    Entry.duration e = 0
    ∧ ∃ i, (a.2 ≤ i < b.2)%nat ∧ Entry.start_time e = clock i.
Proof.
  intros HA Hx HB a b e He. subst a b.
  set (sa := (update clock osA self n).1.2) in *.
  set (na := (update clock osA self n).2) in *.
  assert (connections sa = ∅) as Hempty.
  { subst sa. by rewrite (update_connections clock osA self n []
                            (enumerate_permission osA x HA Hx)). }
  apply elem_of_values in He as [cid Hcid].
  rewrite (update_connections clock osB sa na l HB) in Hcid.
  rewrite update_reads, HB.
  destruct (reconciled_lookup clock osB sa na l cid) as [_ [[_ Hnone]|H]];
    [congruence|].
  destruct H as (conn & i & _ & _ & _ & Hi & Hl).
  rewrite Hl in Hcid. injection Hcid as <-.
  unfold tracked_entry. simpl.
  destruct (sampled_frame clock osB sa na) as (_ & _ & -> & _).
  rewrite Hempty, lookup_empty.
  split; [done|]. exists i. split; [lia|done].
Qed.

Lemma refused_tick_restarts_the_durations_witness :
  let a := update seconds (refused_host 4020 20 []) busy.1 busy.2 in
  let b := update seconds busy_tick a.1.2 a.2 in
  Entry.duration restarted_web = 0
  ∧ ∃ i, (a.2 ≤ i < b.2)%nat ∧ Entry.start_time restarted_web = seconds i.
Proof.
  apply (refused_tick_restarts_the_durations seconds (refused_host 4020 20 [])
           busy_tick busy.1 busy.2 AccessDenied [web; orphan]).
  - reflexivity.
  - left. reflexivity.
  - reflexivity.
  - apply elem_of_values. exists (_get_connection_id web). vm_compute. reflexivity.
Defined.

(** X14.  The rates of a connection are those of its process: after a tick
    that completes, two connections reported with the same pid carry the
    same upload and download speeds, so the speeds of the connections of
    one process do not add up to the rate of that process. *)
Theorem connections_of_a_process_share_its_rates clock os self n l e1 e2 :
  enumerate os = Returned l →
  let self' := (update clock os self n).1.2 in
  e1 ∈ get_connections self' → e2 ∈ get_connections self' →
  Entry.pid e1 = Entry.pid e2 →
  Entry.upload_speed e1 = Entry.upload_speed e2
  ∧ Entry.download_speed e1 = Entry.download_speed e2.
Proof.
  intros Hen self' [c1 H1]%elem_of_values [c2 H2]%elem_of_values Hpid.
  destruct (update_entry_rates clock os self n l c1 e1 Hen H1) as [-> ->].
  destruct (update_entry_rates clock os self n l c2 e2 Hen H2) as [-> ->].
  by rewrite Hpid.
Qed.

(** X15.  When the enumeration raises an exception that is not a permission
    error, [update] raises it after the two samplers have run: the table of
    connections keeps the entries of the previous tick, lifetimes and rates
    included, while the aggregate baseline and the byte totals are already
    those of this tick; two clock readings have been taken. *)
Theorem escaping_error_keeps_the_old_table clock os self n x :
  net_connections os = ConnectionsRaises x →
  x ≠ AccessDenied → x ≠ PermissionError →
  let r := update clock os self n in
  r.1.1 = Raised x
  ∧ r.2 = S (S n)
  ∧ get_connections r.1.2 = get_connections self
  ∧ previous_io_counters r.1.2 = Some (net_io_counters os)
  ∧ previous_time r.1.2 = Some (clock n)
  ∧ total_bytes_sent r.1.2 = psutil.bytes_sent (net_io_counters os)
  ∧ total_bytes_received r.1.2 = psutil.bytes_recv (net_io_counters os).
Proof.
  intros Hos H1 H2 r. subst r.
  assert (enumerate os = Raised x) as Hen.
  { unfold enumerate. rewrite Hos. by destruct x. }
  destruct (update_aggregate_fields clock os self n)
    as (_ & _ & _ & Hio & Hpt & Hs & Hr).
  split_and!; [| | |done..].
  - by rewrite update_outcome, Hen.
  - by rewrite update_reads, Hen.
  - unfold get_connections. rewrite update_state, Hen.
    by destruct (sampled_frame clock os self n) as (_ & _ & -> & _).
Qed.

Lemma escaping_error_keeps_the_old_table_witness :
  let os := {| net_io_counters := {| psutil.bytes_sent := 4020; psutil.bytes_recv := 20 |};
               nettop := NettopCompleted 0 [];
               net_connections := ConnectionsRaises OtherException;
               Process_name := names |} in
  let r := update seconds os busy.1 busy.2 in
  r.1.1 = Raised OtherException
  ∧ r.2 = S (S busy.2)
  ∧ get_connections r.1.2 = get_connections busy.1
  ∧ previous_io_counters r.1.2 = Some (net_io_counters os)
  ∧ previous_time r.1.2 = Some (seconds busy.2)
  ∧ total_bytes_sent r.1.2 = psutil.bytes_sent (net_io_counters os)
  ∧ total_bytes_received r.1.2 = psutil.bytes_recv (net_io_counters os).
Proof.
  apply (escaping_error_keeps_the_old_table seconds
           {| net_io_counters := {| psutil.bytes_sent := 4020; psutil.bytes_recv := 20 |};
              nettop := NettopCompleted 0 [];
              net_connections := ConnectionsRaises OtherException;
              Process_name := names |} busy.1 busy.2 OtherException).
  - reflexivity.
  - discriminate.
  - discriminate.
Defined.

Lemma connections_of_a_process_share_its_rates_witness :
  Entry.upload_speed (twin_entry web) = Entry.upload_speed (twin_entry web_second)
  ∧ Entry.download_speed (twin_entry web) = Entry.download_speed (twin_entry web_second).
Proof.
  apply (connections_of_a_process_share_its_rates seconds twin_tick busy.1 busy.2
           [web; web_second] (twin_entry web) (twin_entry web_second)).
  - reflexivity.
  - apply elem_of_values. exists (_get_connection_id web). vm_compute. reflexivity.
  - apply elem_of_values. exists (_get_connection_id web_second).
    vm_compute. reflexivity.
  - reflexivity.
Defined.

(** X16.  The uptime is counted from the first clock reading of the
    constructor, which no tick changes: the stats of a tick report the last
    clock reading of the tick minus that reading, [get_stats] reports its
    own reading minus it, and with a clock that never goes backwards the
    uptime of a tick is not negative. *)
Theorem uptime_counts_from_construction clock N os0 n ticks os snap :
  (∀ i j, (i ≤ j)%nat → clock i ≤ clock j) →
  let r := run clock ticks (__init__ clock N os0 n).1 (S (S n)) in
  let u := update clock os r.1 r.2 in
  u.1.1 = Returned snap →
  Stats.uptime (snap_stats snap) = clock (pred u.2) - clock n
  ∧ 0 ≤ Stats.uptime (snap_stats snap)
  ∧ ∀ k, Stats.uptime (get_stats clock u.1.2 k).1 = clock k - clock n.
Proof.
  intros Hmono r u Hsnap. subst u.
  assert (start_time (update clock os r.1 r.2).1.2 = clock n) as Hstart.
  { destruct (update_aggregate_fields clock os r.1 r.2) as (_ & _ & -> & _).
    subst r. by rewrite run_start_time. }
  rewrite update_outcome in Hsnap. rewrite update_reads.
  destruct (enumerate os) as [l|x] eqn:Hen; [|done].
  injection Hsnap as <-. simpl. rewrite Hstart.
  split_and!; [done| |].
  - apply (Qcplus_le_mono_r _ _ (clock n)).
    replace (clock (reconciled clock os r.1 r.2 l).2 - clock n + clock n)
      with (clock (reconciled clock os r.1 r.2 l).2) by ring.
    rewrite Qcplus_0_l. apply Hmono.
    destruct (reconciled_lookup clock os r.1 r.2 l "") as [Hle _]. simpl in Hle.
    pose proof (run_reads_grow clock ticks (__init__ clock N os0 n).1 (S (S n))).
    fold r in H. lia.
  - done.
Qed.

Lemma uptime_counts_from_construction_witness :
  let u := update seconds busy_tick busy.1 busy.2 in
  Stats.uptime (snap_stats busy_snapshot) = seconds (pred u.2) - seconds 0%nat
  ∧ 0 ≤ Stats.uptime (snap_stats busy_snapshot)
  ∧ ∀ k, Stats.uptime (get_stats seconds u.1.2 k).1 = seconds k - seconds 0%nat.
Proof.
  apply (uptime_counts_from_construction seconds 60%nat (quiet_host 0 0) 0%nat
           [host 5 5 [(4242%Z, counters 100 200); (77%Z, counters 0 0)] [web];
            host 9 9 [(4242%Z, counters 400 900); (77%Z, counters 50 100)] [web]]
           busy_tick busy_snapshot).
  - apply seconds_mono.
  - vm_compute. reflexivity.
Defined.

(** * Further properties of the transport *)

Section transport.

Import Broadcaster Transport.

(** The frames of the receive loop are pongs, one for each ping that was
    read before the loop was left. *)
Lemma receive_loop_frames turns :
  (receive_loop turns).1 = replicate (length (receive_loop turns).1) Pong
  ∧ (length (receive_loop turns).1 ≤ length (filter is_ping turns))%nat.
Proof.
  induction turns as [|t turns [IH1 IH2]]; [done|].
  destruct t as [[| |]|[| |type] reply]; simpl; try (split; [done|lia]).
  - by rewrite filter_cons.
  - rewrite filter_cons. simpl. case_bool_decide as Hping; simpl; [|done].
    destruct reply as [[| |]|]; simpl;
      try rewrite (surjective_pairing (receive_loop turns)); simpl;
      (split; [by f_equal|lia]).
Qed.

Lemma receive_loop_waiting turns :
  (receive_loop turns).2 = true ↔ Forall keeps_open turns.
Proof.
  induction turns as [|t turns IH]; [by split|].
  rewrite Forall_cons.
  destruct t as [[| |]|[| |type] reply]; simpl;
    try (split; [done|by intros [? _]]).
  - rewrite IH. split; [by split|by intros [_ ?]].
  - case_bool_decide as Hping.
    + destruct reply as [[| |]|]; simpl;
        try rewrite (surjective_pairing (receive_loop turns)); simpl;
        try (split; [done|by intros [? _]]);
        rewrite IH; (split; [by split|by intros [_ ?]]).
    + rewrite IH. split; [by split|by intros [_ ?]].
Qed.

Lemma receive_loop_answers_every_ping turns :
  Forall keeps_open turns →
  length (receive_loop turns).1 = length (filter is_ping turns).
Proof.
  induction 1 as [|t turns Ht _ IH]; [done|].
  rewrite filter_cons.
  destruct t as [[| |]|[| |type] reply]; simpl in *; try done.
  case_bool_decide as Hping; simpl; [|done].
  destruct reply as [[| |]|]; try done;
    rewrite (surjective_pairing (receive_loop turns)); simpl; by f_equal.
Qed.

End transport.


(** X19.  After the initial frame, which carries the snapshot of the tick
    made on connection, the endpoint hands nothing but pongs to
    [send_text], at most one per ping received.  The receive loop is still
    waiting after the given turns exactly when each of them was a timeout
    of the wait, a JSON object that is not a ping, or a ping whose pong was
    delivered or timed out; one pong has then been handed over for every
    ping.  In particular the 60 second timeouts never close the
    connection. *)
Theorem endpoint_answers_pings_with_pongs clock websocket os turns others
    monitor (active : gset Broadcaster.WebSocket) n data :
  (update clock os monitor n).1.1 = Returned data →
  let s := (Transport.websocket_endpoint clock websocket os None turns others
              monitor active n).1 in
  (∃ k, Transport.sent s = Transport.Initial data :: replicate k Transport.Pong
        ∧ (k ≤ length (filter Transport.is_ping turns))%nat
        ∧ (Transport.waiting s = true → k = length (filter Transport.is_ping turns)))
  ∧ (Transport.waiting s = true ↔ Forall Transport.keeps_open turns).
Proof.
  intros Hdata. unfold Transport.websocket_endpoint. rewrite bind_run, Hdata.
  rewrite (surjective_pairing (Transport.receive_loop turns)). simpl.
  destruct (receive_loop_frames turns) as [Hfr Hle].
  split; [|apply receive_loop_waiting].
  exists (length (Transport.receive_loop turns).1).
  split_and!; [by f_equal|done|].
  intros Hw. by apply receive_loop_answers_every_ping, receive_loop_waiting.
Qed.

Lemma endpoint_answers_pings_with_pongs_witness :
  let turns := [Transport.Raises Transport.TimeoutError;
                Transport.Text (Transport.Object (Some "ping")) None;
                Transport.Text (Transport.Object (Some "hello")) None;
                Transport.Text (Transport.Object (Some "ping"))
                  (Some Transport.TimeoutError);
                Transport.Text (Transport.Object (Some "ping")) None] in
  let s := (Transport.websocket_endpoint seconds 4%nat busy_tick None turns
              [Broadcaster.Add 5%nat] busy.1 {[1%nat; 3%nat]} busy.2).1 in
  (∃ k, Transport.sent s = Transport.Initial busy_snapshot :: replicate k Transport.Pong
        ∧ (k ≤ length (filter Transport.is_ping turns))%nat
        ∧ (Transport.waiting s = true → k = length (filter Transport.is_ping turns)))
  ∧ (Transport.waiting s = true ↔ Forall Transport.keeps_open turns).
Proof.
  apply (endpoint_answers_pings_with_pongs seconds 4%nat busy_tick
           [Transport.Raises Transport.TimeoutError;
            Transport.Text (Transport.Object (Some "ping")) None;
            Transport.Text (Transport.Object (Some "hello")) None;
            Transport.Text (Transport.Object (Some "ping"))
              (Some Transport.TimeoutError);
            Transport.Text (Transport.Object (Some "ping")) None]
           [Broadcaster.Add 5%nat] busy.1 {[1%nat; 3%nat]} busy.2 busy_snapshot).
  vm_compute. reflexivity.
Defined.

(** A client that pings three times, one pong timing out, gets the initial
    frame and three pongs and stays subscribed, beside the client that has
    connected meanwhile; a text that is not JSON ends the session and the
    socket is discarded. *)
Example endpoint_sessions :
  let session := λ turns,
    (Transport.websocket_endpoint seconds 4%nat busy_tick None turns
       [Broadcaster.Add 5%nat] busy.1 {[1%nat; 3%nat]} busy.2).1 in
  let alive := session [Transport.Raises Transport.TimeoutError;
                        Transport.Text (Transport.Object (Some "ping")) None;
                        Transport.Text (Transport.Object (Some "ping"))
                          (Some Transport.TimeoutError);
                        Transport.Text (Transport.Object (Some "ping")) None] in
  let ended := session [Transport.Text (Transport.Object (Some "ping")) None;
                        Transport.Text Transport.NotJson None;
                        Transport.Text (Transport.Object (Some "ping")) None] in
  length (Transport.sent alive) = 4%nat
  ∧ Transport.waiting alive = true
  ∧ Transport.active_after alive = {[1%nat; 3%nat; 4%nat; 5%nat]}
  ∧ length (Transport.sent ended) = 2%nat
  ∧ Transport.waiting ended = false
  ∧ Transport.active_after ended = {[1%nat; 3%nat; 5%nat]}.
Proof.
  split_and!; try (vm_compute; reflexivity);
    apply (bool_decide_unpack _); vm_compute; exact I.
Qed.

(** * Later assignments overwrite earlier ones *)

Section overwriting.

Variable clock : nat → Qc.

Lemma last_cons_filter {A} (P : A → Prop) `{∀ x, Decision (P x)} (x : A) l :
  last (filter P (x :: l))
  = match last (filter P l) with
    | Some y => Some y
    | None => if decide (P x) then Some x else None
    end.
Proof.
  rewrite filter_cons. destruct (decide (P x)); [|by destruct (last (filter P l))].
  destruct (filter P l) as [|y l'] eqn:Hl; [done|].
  rewrite last_cons. by destruct (last (y :: l')) eqn:Hlast;
    [|apply last_None in Hlast].
Qed.

(** The dict built by the loop holds, under an identity, the entry of the
    last enumerated socket that has this identity and a remote endpoint. *)
Lemma for_each_track_last os self cid l : ∀ acc n,
  let r := for_each (track clock os self) acc l n in
  match last (filter (λ c, has_remote c ∧ _get_connection_id c = cid) l) with
  | Some conn =>
      ∃ i, (n ≤ i < r.2)%nat
         ∧ r.1 !! cid = Some (tracked_entry os self conn (clock i))
  | None => r.1 !! cid = acc !! cid
  end.
Proof.
  induction l as [|c l IH]; intros acc n; [done|].
  rewrite last_cons_filter. simpl. rewrite bind_run, track_run.
  destruct (has_remote c) eqn:Hc; simpl.
  - specialize (IH (<[_get_connection_id c := tracked_entry os self c (clock n)]> acc)
                   (S n)).
    simpl in IH.
    destruct (last (filter (λ c, has_remote c ∧ _get_connection_id c = cid) l)).
    + destruct IH as (i & Hi & Hl). exists i. split; [lia|done].
    + destruct (for_each_track clock os self l
                  (<[_get_connection_id c := tracked_entry os self c (clock n)]> acc)
                  (S n)) as [Hle _]. simpl in Hle.
      case_decide as Hm.
      * destruct Hm as [_ <-]. exists n. split; [lia|].
        by rewrite IH, lookup_insert_eq.
      * rewrite IH, lookup_insert_ne; [done|].
        intros Heq. by apply Hm.
  - specialize (IH acc n). simpl in IH.
    destruct (last (filter (λ c, has_remote c ∧ _get_connection_id c = cid) l)).
    + done.
    + done.
Qed.

Lemma parse_counters_snoc rows row :
  parse_counters (rows ++ [row]) = <[row.1 := row.2]> (parse_counters rows).
Proof. unfold parse_counters. by rewrite foldl_app. Qed.

End overwriting.

(** X20.  When several sockets of one enumeration have the same identity,
    the entry reported under it is built from the last of them: it carries
    the state and the addresses of that socket, the earlier ones leave no
    trace. *)
Theorem last_enumerated_socket_wins clock os self n l conn :
  enumerate os = Returned l →
  last (filter (λ c, has_remote c ∧ _get_connection_id c = _get_connection_id conn) l)
  = Some conn →
  ∃ e, connections (update clock os self n).1.2 !! _get_connection_id conn = Some e
    ∧ Entry.state e = psutil.status conn
    ∧ Entry.local_addr e = _format_addr (psutil.laddr conn)
    ∧ Entry.remote_addr e = _format_addr (psutil.raddr conn)
    ∧ Entry.process_name e = _get_process_name os (psutil.pid conn).
Proof.
  intros Hen Hlast. rewrite (update_connections clock os self n l Hen).
  pose proof (for_each_track_last clock os (sampled clock os self n)
                (_get_connection_id conn) l ∅ (S (S n))) as H.
  simpl in H. rewrite Hlast in H. destruct H as (i & _ & Hl).
  unfold reconciled. rewrite Hl. eexists. by split.
Qed.

Lemma last_enumerated_socket_wins_witness :
  let closing :=
    {| psutil.laddr := psutil.laddr web; psutil.raddr := psutil.raddr web;
       psutil.type := psutil.type web; psutil.status := "CLOSE_WAIT";
       psutil.pid := psutil.pid web |} in
  let os := host 10 10 [] [web; orphan; closing] in
  ∃ e, connections (update seconds os fresh.1 fresh.2).1.2
         !! _get_connection_id closing = Some e
    ∧ Entry.state e = "CLOSE_WAIT"
    ∧ Entry.local_addr e = _format_addr (psutil.laddr closing)
    ∧ Entry.remote_addr e = _format_addr (psutil.raddr closing)
    ∧ Entry.process_name e = _get_process_name os (psutil.pid closing).
Proof.
  apply (last_enumerated_socket_wins seconds
           (host 10 10 []
              [web; orphan;
               {| psutil.laddr := psutil.laddr web; psutil.raddr := psutil.raddr web;
                  psutil.type := psutil.type web; psutil.status := "CLOSE_WAIT";
                  psutil.pid := psutil.pid web |}])
           fresh.1 fresh.2
           [web; orphan;
            {| psutil.laddr := psutil.laddr web; psutil.raddr := psutil.raddr web;
               psutil.type := psutil.type web; psutil.status := "CLOSE_WAIT";
               psutil.pid := psutil.pid web |}]
           {| psutil.laddr := psutil.laddr web; psutil.raddr := psutil.raddr web;
              psutil.type := psutil.type web; psutil.status := "CLOSE_WAIT";
              psutil.pid := psutil.pid web |}).
  - reflexivity.
  - vm_compute. reflexivity.
Defined.

(** X21.  When the output of [nettop] has several lines for one pid, the
    counters kept for the pid are those of the last such line; a pid that
    has no line has no counters. *)
Theorem last_line_of_a_pid_wins rows pid :
  parse_counters rows !! pid = snd <$> last (filter (λ row, row.1 = pid) rows).
Proof.
  induction rows as [|row rows IH] using rev_ind; [done|].
  rewrite parse_counters_snoc, filter_app, filter_cons, filter_nil.
  case_decide as Hpid.
  - rewrite last_snoc, <-Hpid. simpl. by rewrite lookup_insert_eq.
  - rewrite app_nil_r, lookup_insert_ne by done. apply IH.
Qed.
